(** * XenoChain ledger and consensus node (src/Ledger.py)

    A shallow embedding of [XenoChain] and [ConsensusNode] and the
    properties of the ledger specification checked against it.

    Modelling conventions.
    - Python dictionaries keyed by strings are [gmap string _]; the
      [defaultdict(list)] of per-agent chains inserts an empty list when a
      missing key is read, and that write is modelled.
    - Python numbers that may be floats (accuracy, timestamps, decoded range
      bounds, the time window) are exact rationals [Q]; [int(x)] is
      truncation toward zero, [round(x)] rounds half to even.
    - [None] is [option]'s [None]; truthiness tests ([if x:]) are written
      out: [None], the empty string, the empty list and the empty
      dictionary are false.
    - Methods run in a state-and-exception monad over the object they
      mutate; [async]/[await] is sequential here (no interleaving inside a
      method is modelled).
    - [time.time()] is an explicit argument [now]. *)

From Stdlib Require Import ZArith QArith Qround Qabs Lia.
From stdpp Require Import base option list strings gmap pretty sorting.

Local Open Scope Z_scope.

(** ** Python numeric helpers *)

(** [int(x)] on a number: truncation toward zero. *)
Definition py_int (x : Q) : Z := Z.quot (Qnum x) (Zpos (Qden x)).


(** [x < y] on numbers, as Python's [min] and [>] evaluate it. *)
Definition Qltb (x y : Q) : bool := negb (Qle_bool y x).

(** [if s:] on an optional string: [None] and the empty string are false. *)
Definition truthy_str (s : option string) : bool :=
  match s with
  | Some h => negb (String.eqb h "")
  | None => false
  end.

(** [min(l, key=key)] after the first element [best] has been taken:
    a later element replaces the current best only when its key is
    strictly smaller, so the first of several minimal elements wins. *)
Fixpoint min_scan {A : Type} (key : A -> Q) (best : A) (rest : list A) : A :=
  match rest with
  | [] => best
  | x :: rest' =>
      if Qltb (key x) (key best) then min_scan key x rest'
      else min_scan key best rest'
  end.

(** ** Exceptions and the method monad *)

Inductive exn : Type :=
| KeyError (key : string)
| PeerError (msg : string).

(** A method call either returns a value or raises; both leave a state. *)
Inductive outcome (St A : Type) : Type :=
| Done (a : A) (s : St)
| Raised (e : exn) (s : St).

Arguments Done {St A} a s.
Arguments Raised {St A} e s.

Definition M (St A : Type) : Type := St -> outcome St A.

#[export] Instance M_ret {St : Type} : MRet (M St) :=
  fun A a s => Done a s.

#[export] Instance M_bind {St : Type} : MBind (M St) :=
  fun A B f m s =>
    match m s with
    | Done a s' => f a s'
    | Raised e s' => Raised e s'
    end.

Definition gets {St A : Type} (f : St -> A) : M St A :=
  fun s => Done (f s) s.

Definition modify {St : Type} (f : St -> St) : M St unit :=
  fun s => Done tt (f s).

Definition raise {St A : Type} (e : exn) : M St A :=
  fun s => Raised e s.

(** Run a method of a component object ([self.chain.m(...)]). *)
Definition zoom {S T A : Type} (proj : S -> T) (upd : T -> S -> S)
    (m : M T A) : M S A :=
  fun s =>
    match m (proj s) with
    | Done a t => Done a (upd t s)
    | Raised e t => Raised e (upd t s)
    end.

Definition outcome_state {St A : Type} (o : outcome St A) : St :=
  match o with
  | Done _ s => s
  | Raised _ s => s
  end.

Definition is_done {St A : Type} (o : outcome St A) : bool :=
  match o with
  | Done _ _ => true
  | Raised _ _ => false
  end.

(** ** Data model *)

(** The state snapshot handed to [add_block]: a dictionary of which the
    ledger reads five keys, each of which may be absent. *)
Record Snapshot : Type := mkSnapshot {
  skills : option (list string);
  average_accuracy : option Q;
  learning_iterations : option Z;
  snap_dependencies : option (list string);
  related_agents : option (list string)
}.

(** [profile['relationships']]: keys ['dependencies'] and ['agents']. *)
Record Relationships : Type := mkRelationships {
  rel_dependencies : option (list string);
  rel_agents : option (list string)
}.

(** The profile dictionary: ['id'], ['Wealth'], ['Hunger'], ['Status'] and,
    only when non-empty, ['relationships']. *)
Record Profile : Type := mkProfile {
  profile_id : string;
  Wealth : Z;
  Hunger : Z;
  Status : Z;
  relationships : option Relationships
}.

(** The state dictionary rebuilt by [_convert_ranges_to_state]. *)
Record AgentState : Type := mkAgentState {
  st_agent_id : string;
  st_skills : list string;
  st_average_accuracy : Q;
  st_learning_iterations : Z;
  st_needs_training : bool;
  st_timestamp : Q;
  st_dependencies : option (list string)
}.

(** Decoded ranges: a dictionary from metric name to [(low, high)]. *)
Abbreviation Ranges := (gmap string (Q * Q)).

Section Ledger.

(** The scan blob and metadata values are opaque to the ledger. *)
Context {Scan MetaVal : Type}.

(** Modelled from the spec: class [BlockRecord] is not among the sources.
    Section 3 of the specification gives its fields; [hash] is a stored
    field, filled in by the constructor from the other six. *)
Record BlockRecord : Type := mkBlockRecord {
  agent_id : string;
  scan : Scan;
  timestamp : Q;
  prev_hash : option string;
  dependencies : list string;
  metadata : gmap string MetaVal;
  hash : string
}.

(** The block hash function and the codec [XLSP] are external; they are
    taken as pure functions. *)
Variable compute_hash :
  string -> Scan -> Q -> option string -> list string ->
  gmap string MetaVal -> string.
Variable encode : Profile -> Q -> Scan.
Variable decode : Scan -> Q -> Ranges.

(** Modelled from the spec: the constructor [BlockRecord(...)], absent from
    the sources, stores its six arguments and the hash computed over them. *)
Definition new_BlockRecord (a : string) (sc : Scan) (ts : Q)
    (prev : option string) (deps : list string)
    (meta : gmap string MetaVal) : BlockRecord :=
  mkBlockRecord a sc ts prev deps meta (compute_hash a sc ts prev deps meta).

(** Whether a block's stored hash is the hash of its content. *)
Definition hash_consistent (b : BlockRecord) : Prop :=
  hash b =
  compute_hash (agent_id b) (scan b) (timestamp b) (prev_hash b)
    (dependencies b) (metadata b).

(** *** XenoChain *)

Record XenoChain : Type := mkXenoChain {
  blocks : list BlockRecord;
  agent_blocks : gmap string (list BlockRecord);
  hash_index : gmap string BlockRecord
}.

Definition XenoChain_init : XenoChain := mkXenoChain [] ∅ ∅.

Definition set_blocks (f : list BlockRecord -> list BlockRecord)
    (c : XenoChain) : XenoChain :=
  mkXenoChain (f (blocks c)) (agent_blocks c) (hash_index c).

Definition set_agent_blocks
    (f : gmap string (list BlockRecord) -> gmap string (list BlockRecord))
    (c : XenoChain) : XenoChain :=
  mkXenoChain (blocks c) (f (agent_blocks c)) (hash_index c).

Definition set_hash_index
    (f : gmap string BlockRecord -> gmap string BlockRecord)
    (c : XenoChain) : XenoChain :=
  mkXenoChain (blocks c) (agent_blocks c) (f (hash_index c)).

(** [self.agent_blocks[agent_id]] on the [defaultdict(list)]: reading a
    missing key stores an empty list under it. *)
Definition agent_blocks_getitem (a : string) : M XenoChain (list BlockRecord) :=
  ab ← gets agent_blocks;
  match ab !! a with
  | Some l => mret l
  | None => modify (set_agent_blocks (insert a [])) ;; mret []
  end.

(** The agent's chain as a query sees it (no entry reads as empty). *)
Definition agent_seq (c : XenoChain) (a : string) : list BlockRecord :=
  default [] (agent_blocks c !! a).

(** [_convert_state_to_profile] *)
Definition _convert_state_to_profile (a : string) (state : Snapshot) : Profile :=
  let skill_count := Z.of_nat (length (default [] (skills state))) in
  let accuracy := default (1 # 2)%Q (average_accuracy state) in
  let learning_iterations := default 0 (learning_iterations state) in
  let wealth := skill_count * 100 + learning_iterations * 50 in
  let hunger := Z.max 0 (100 - py_int (accuracy * 100)) in
  let status := py_int (accuracy * 100) in
  let rels := mkRelationships (snap_dependencies state) (related_agents state) in
  mkProfile a wealth hunger status
    (match snap_dependencies state, related_agents state with
     | None, None => None
     | _, _ => Some rels
     end).

(** [ranges[k]], raising [KeyError] on a missing key. *)
Definition ranges_getitem {St : Type} (ranges : Ranges) (k : string) : M St (Q * Q) :=
  match ranges !! k with
  | Some r => mret r
  | None => raise (KeyError k)
  end.

(** [[f"skill_{i}" for i in range(n)]] *)
Definition skill_names (n : Z) : list string :=
  (fun i : nat => "skill_" +:+ pretty i) <$> seq 0 (Z.to_nat n).

(** [_convert_ranges_to_state]; [now] is what [time.time()] would return. *)
Definition _convert_ranges_to_state {St : Type} (a : string) (ranges : Ranges)
    (block : option BlockRecord) (now : Q) : M St (option AgentState) :=
  if decide (ranges = ∅) then mret None else
  w ← ranges_getitem ranges "Wealth";
  let wealth := ((fst w + snd w) / 2)%Q in
  h ← ranges_getitem ranges "Hunger";
  let hunger := ((fst h + snd h) / 2)%Q in
  s ← ranges_getitem ranges "Status";
  let status := ((fst s + snd s) / 2)%Q in
  let skill_count := Z.max 1 (py_int (wealth / 100)) in
  let accuracy := (status / 100)%Q in
  let learning_iterations :=
    Z.max 0 (py_int ((wealth - inject_Z (skill_count * 100)) / 50)) in
  mret (Some (mkAgentState a (skill_names skill_count) accuracy
                learning_iterations (Qltb 50 hunger)
                (match block with Some b => timestamp b | None => now end)
                (match block with
                 | Some b =>
                     match dependencies b with
                     | [] => None
                     | _ :: _ => Some (dependencies b)
                     end
                 | None => None
                 end))).

(** [add_block]; [now] is the clock reading taken for the timestamp. *)
Definition add_block (a : string) (state : Snapshot) (delta_t : Q)
    (deps : option (list string)) (meta : option (gmap string MetaVal))
    (now : Q) : M XenoChain string :=
  let profile := _convert_state_to_profile a state in
  let sc := encode profile delta_t in
  cur ← agent_blocks_getitem a;
  let prev := hash <$> last cur in
  let block := new_BlockRecord a sc now prev (default [] deps) (default ∅ meta) in
  modify (set_blocks (fun l => l ++ [block])) ;;
  l ← agent_blocks_getitem a;
  modify (set_agent_blocks (insert a (l ++ [block]))) ;;
  modify (set_hash_index (insert (hash block) block)) ;;
  mret (hash block).

(** The block that [add_block] builds. *)
Definition appended_block (a : string) (state : Snapshot) (delta_t : Q)
    (deps : option (list string)) (meta : option (gmap string MetaVal))
    (now : Q) (c : XenoChain) : BlockRecord :=
  new_BlockRecord a
    (encode (_convert_state_to_profile a state) delta_t) now
    (hash <$> last (agent_seq c a)) (default [] deps) (default ∅ meta).

(** [get_state] *)
Definition get_state (a : string) (delta_t : Q) (block_hash : option string)
    (now : Q) : M XenoChain (option AgentState) :=
  if truthy_str block_hash then
    idx ← gets hash_index;
    match idx !! default "" block_hash with
    | None => mret None
    | Some block =>
        if decide (agent_id block = a) then
          _convert_ranges_to_state a (decode (scan block) delta_t) (Some block) now
        else mret None
    end
  else
    l ← agent_blocks_getitem a;
    match last l with
    | None => mret None
    | Some block =>
        _convert_ranges_to_state a (decode (scan block) delta_t) (Some block) now
    end.

(** [get_agent_at_time] *)
Definition get_agent_at_time (a : string) (t : Q) (delta_t : Q) (now : Q)
    : M XenoChain (option AgentState) :=
  l ← agent_blocks_getitem a;
  match l with
  | [] => mret None
  | b0 :: rest =>
      let closest_block :=
        min_scan (fun b => Qabs (timestamp b - t)) b0 rest in
      _convert_ranges_to_state a (decode (scan closest_block) delta_t)
        (Some closest_block) now
  end.

(** *** ConsensusNode *)

(** What a node needs of a peer: an object with [receive_block]. A peer is
    any such object; its call may raise (a remote peer can be down). *)
Class PeerLike (P : Type) : Type := {
  peer_receive_block : BlockRecord -> M P bool
}.

(** A node holds its peers in a list; [add_peer] keeps the entries distinct,
    so each entry stands for one peer object and its current state. *)
Record ConsensusNode (P : Type) : Type := mkConsensusNode {
  node_id : string;
  chain : XenoChain;
  peers : list P;
  pending_blocks : list BlockRecord
}.

Arguments mkConsensusNode {P} _ _ _ _.
Arguments node_id {P} _.
Arguments chain {P} _.
Arguments peers {P} _.
Arguments pending_blocks {P} _.

Definition ConsensusNode_init {P : Type} (nid : string) : ConsensusNode P :=
  mkConsensusNode nid XenoChain_init [] [].

Definition set_chain {P : Type} (c : XenoChain) (n : ConsensusNode P)
    : ConsensusNode P :=
  mkConsensusNode (node_id n) c (peers n) (pending_blocks n).

Definition set_peers {P : Type} (ps : list P) (n : ConsensusNode P)
    : ConsensusNode P :=
  mkConsensusNode (node_id n) (chain n) ps (pending_blocks n).

Definition set_pending_blocks {P : Type}
    (f : list BlockRecord -> list BlockRecord) (n : ConsensusNode P)
    : ConsensusNode P :=
  mkConsensusNode (node_id n) (chain n) (peers n) (f (pending_blocks n)).

(** A method of [self.chain] called from the node. *)
Definition on_chain {P A : Type} (m : M XenoChain A) : M (ConsensusNode P) A :=
  zoom chain set_chain m.

(** The dependency loop of [validate_block]. *)
Fixpoint check_dependencies {P : Type} (deps : list string)
    : M (ConsensusNode P) bool :=
  match deps with
  | [] => mret true
  | dep_hash :: rest =>
      idx ← gets (fun self => hash_index (chain self));
      match idx !! dep_hash with
      | None => mret false
      | Some _ => check_dependencies rest
      end
  end.

(** [validate_block] *)
Definition validate_block {P : Type} (block : BlockRecord)
    : M (ConsensusNode P) bool :=
  idx ← gets (fun self => hash_index (chain self));
  if decide (is_Some (idx !! hash block)) then mret true else
  if truthy_str (prev_hash block) then
    match idx !! default "" (prev_hash block) with
    | None => mret false
    | Some prev_block =>
        if decide (agent_id prev_block = agent_id block)
        then check_dependencies (dependencies block)
        else mret false
    end
  else check_dependencies (dependencies block).

(** [receive_block] *)
Definition receive_block {P : Type} (block : BlockRecord)
    : M (ConsensusNode P) bool :=
  ok ← validate_block block;
  if ok : bool then
    on_chain (modify (set_blocks (fun l => l ++ [block]))) ;;
    l ← on_chain (agent_blocks_getitem (agent_id block));
    on_chain (modify (set_agent_blocks (insert (agent_id block) (l ++ [block])))) ;;
    on_chain (modify (set_hash_index (insert (hash block) block))) ;;
    modify (set_pending_blocks
              (filter (fun b => hash b ≠ hash block))) ;;
    mret true
  else
    modify (set_pending_blocks (fun l => l ++ [block])) ;;
    mret false.

(** A consensus node is itself a peer. *)
#[export] Instance ConsensusNode_PeerLike {P : Type} : PeerLike (ConsensusNode P) :=
  {| peer_receive_block := receive_block |}.

(** [await peer.receive_block(block)] for the peer at position [i] of
    [self.peers]; the peer's new state is what the list entry now shows. *)
Definition call_peer {P : Type} `{!PeerLike P} (i : nat) (block : BlockRecord)
    : M (ConsensusNode P) unit :=
  fun self =>
    match peers self !! i with
    | None => Done tt self
    | Some peer =>
        match peer_receive_block block peer with
        | Done _ peer' => Done tt (set_peers (<[i := peer']> (peers self)) self)
        | Raised e peer' => Raised e (set_peers (<[i := peer']> (peers self)) self)
        end
    end.

(** The loop [for peer in self.peers], from position [i], [count] to go. *)
Fixpoint broadcast_from {P : Type} `{!PeerLike P} (block : BlockRecord)
    (i count : nat) : M (ConsensusNode P) unit :=
  match count with
  | O => mret tt
  | S count' => call_peer i block ;; broadcast_from block (S i) count'
  end.

(** [broadcast_block] *)
Definition broadcast_block {P : Type} `{!PeerLike P} (block : BlockRecord)
    : M (ConsensusNode P) unit :=
  n ← gets (fun self => length (peers self));
  broadcast_from block 0 n.

(** [propose_block] *)
Definition propose_block {P : Type} `{!PeerLike P} (a : string)
    (state : Snapshot) (delta_t : Q) (deps : option (list string))
    (meta : option (gmap string MetaVal)) (now : Q)
    : M (ConsensusNode P) string :=
  block_hash ← on_chain (add_block a state delta_t deps meta now);
  idx ← gets (fun self => hash_index (chain self));
  match idx !! block_hash with
  | None => raise (KeyError block_hash)
  | Some block => broadcast_block block ;; mret block_hash
  end.

End Ledger.

Arguments BlockRecord : clear implicits.
Arguments XenoChain : clear implicits.
Arguments ConsensusNode : clear implicits.
Arguments mkConsensusNode {Scan MetaVal P} _ _ _ _.
Arguments node_id {Scan MetaVal P} _.
Arguments chain {Scan MetaVal P} _.
Arguments peers {Scan MetaVal P} _.
Arguments pending_blocks {Scan MetaVal P} _.

(** ** Drivers and the specification's readings *)

(** One [add_block] call for a fixed agent: its arguments and the clock
    reading it gets. *)
Record AppendCall (MetaVal : Type) : Type := mkAppendCall {
  call_state : Snapshot;
  call_delta_t : Q;
  call_dependencies : option (list string);
  call_metadata : option (gmap string MetaVal);
  call_now : Q
}.

Arguments mkAppendCall {MetaVal} _ _ _ _ _.
Arguments call_state {MetaVal} _.
Arguments call_delta_t {MetaVal} _.
Arguments call_dependencies {MetaVal} _.
Arguments call_metadata {MetaVal} _.
Arguments call_now {MetaVal} _.

(** Consecutive [add_block] calls for agent [a], returning the hashes. *)
Fixpoint append_all {Scan MetaVal : Type}
    (compute_hash : string -> Scan -> Q -> option string -> list string ->
                    gmap string MetaVal -> string)
    (encode : Profile -> Q -> Scan) (a : string)
    (calls : list (AppendCall MetaVal)) : M (XenoChain Scan MetaVal) (list string) :=
  match calls with
  | [] => mret []
  | c :: rest =>
      h ← add_block compute_hash encode a (call_state c) (call_delta_t c)
            (call_dependencies c) (call_metadata c) (call_now c);
      hs ← append_all compute_hash encode a rest;
      mret (h :: hs)
  end.

(** A run of blocks in which the first points back to [prev] and every later
    one to the hash of the block before it. *)
Fixpoint linked_from {Scan MetaVal : Type} (prev : option string)
    (l : list (BlockRecord Scan MetaVal)) : Prop :=
  match l with
  | [] => True
  | b :: rest => prev_hash b = prev /\ linked_from (Some (hash b)) rest
  end.


(** Truncation toward zero, said with floor and ceiling. *)
Definition truncate_toward_zero (x : Q) : Z :=
  if Qle_bool 0 x then Qfloor x else Qceiling x.

(** The midpoint of a decoded interval. *)
Definition midpoint (r : Q * Q) : Q := ((fst r + snd r) / 2)%Q.

(** What [validate_block] demands of a block that is not yet indexed. *)
Definition prerequisites_met {Scan MetaVal P : Type}
    (n : ConsensusNode Scan MetaVal P) (b : BlockRecord Scan MetaVal) : Prop :=
  (forall h, prev_hash b = Some h -> h <> "" ->
     exists pb, hash_index (chain n) !! h = Some pb /\ agent_id pb = agent_id b) /\
  (forall d, d ∈ dependencies b -> is_Some (hash_index (chain n) !! d)).

(** The state a peer is left in by one [receive_block] call. *)
Definition peer_after {Scan MetaVal P : Type} `{!PeerLike P}
    (b : BlockRecord Scan MetaVal) (p : P) : P :=
  outcome_state (peer_receive_block b p).

(** The specification's pending-list property: after a rejected delivery of
    [b] at most one pending entry carries [b]'s hash. *)
Definition pending_deduplicated {Scan MetaVal P : Type}
    (b : BlockRecord Scan MetaVal) (n : ConsensusNode Scan MetaVal P) : Prop :=
  forall n', receive_block b n = Done false n' ->
    (length (filter (fun x => hash x = hash b) (pending_blocks n')) <= 1)%nat.

(** The specification's fan-out property: after [broadcast_block] every
    peer entry shows the state its own [receive_block] call leaves. *)
Definition delivered_to_all {Scan MetaVal P : Type} `{!PeerLike P}
    (b : BlockRecord Scan MetaVal) (n : ConsensusNode Scan MetaVal P) : Prop :=
  forall i p, peers n !! i = Some p ->
    peers (outcome_state (broadcast_block b n)) !! i
    = Some (peer_after b p).

(** The specification's idempotence property for a re-delivered block. *)
Definition redelivery_idempotent {Scan MetaVal P : Type}
    (b : BlockRecord Scan MetaVal) (n : ConsensusNode Scan MetaVal P) : Prop :=
  exists n', receive_block b n = Done true n' /\
    blocks (chain n') = blocks (chain n) /\
    agent_seq (chain n') (agent_id b) = agent_seq (chain n) (agent_id b) /\
    hash_index (chain n') = hash_index (chain n).

(** ** Sample data *)

Module Sample.

(** A codec that keeps the profile and decodes it to point intervals. *)
Definition encode (p : Profile) (delta_t : Q) : Profile := p.

Definition decode (p : Profile) (delta_t : Q) : Ranges :=
  <["Wealth" := (inject_Z (Wealth p), inject_Z (Wealth p))]>
  (<["Hunger" := (inject_Z (Hunger p), inject_Z (Hunger p))]>
  (<["Status" := (inject_Z (Status p), inject_Z (Status p))]> ∅)).

(** A codec whose decoder knows nothing. *)
Definition decode_nothing (p : Profile) (delta_t : Q) : Ranges := ∅.

(** A stand-in block hash: agent, timestamp numerator, previous hash. *)
Definition compute_hash (a : string) (sc : Profile) (ts : Q)
    (prev : option string) (deps : list string)
    (meta : gmap string string) : string :=
  a +:+ "@" +:+ pretty (Qnum ts) +:+ "<" +:+ default "" prev.

Definition snap_a1 : Snapshot :=
  mkSnapshot (Some ["s1"; "s2"]) (Some (8 # 10)%Q) (Some 3) None None.

(** Accuracy 0.875: [0.875 * 100 = 87.5] exactly, also in binary floating
    point. *)
Definition snap_half : Snapshot :=
  mkSnapshot (Some ["s1"]) (Some (7 # 8)%Q) None None None.

Definition block (a : string) (ts : Z) (prev : option string)
    (deps : list string) : BlockRecord Profile string :=
  new_BlockRecord compute_hash a (_convert_state_to_profile a snap_a1)
    (inject_Z ts) prev deps ∅.

(** A first block of agent a1. *)
Definition b1 : BlockRecord Profile string := block "a1" 10 None [].

(** A block whose predecessor no node has seen. *)
Definition orphan : BlockRecord Profile string :=
  block "a1" 30 (Some "missing") [].

(** A peer that is either unreachable (its call raises) or a live node. *)
Inductive peer : Type :=
| Unreachable
| Reachable (n : ConsensusNode Profile string Empty_set).

#[export] Instance peer_PeerLike : PeerLike peer :=
  {| peer_receive_block := fun b p =>
       match p with
       | Unreachable => Raised (PeerError "unreachable") Unreachable
       | Reachable n =>
           match receive_block b n with
           | Done r n' => Done r (Reachable n')
           | Raised e n' => Raised e (Reachable n')
           end
       end |}.

Definition node0 : ConsensusNode Profile string peer := ConsensusNode_init "n0".

Definition live : peer := Reachable (ConsensusNode_init "p").

Definition three_calls : list (AppendCall string) :=
  [ mkAppendCall snap_a1 1 None None 10;
    mkAppendCall snap_half 1 (Some []) None 20;
    mkAppendCall snap_a1 (1 # 2) None None 30 ].

(** [node0] after it has accepted [b1]. *)
Definition node1 : ConsensusNode Profile string peer :=
  outcome_state (receive_block b1 node0).

(** [node0] after it has rejected [orphan] once. *)
Definition node_pending : ConsensusNode Profile string peer :=
  outcome_state (receive_block orphan node0).

(** A node whose first peer is down. *)
Definition node_two_peers : ConsensusNode Profile string peer :=
  set_peers [Unreachable; live] node0.

(** A node whose second peer is down. *)
Definition node_three_peers : ConsensusNode Profile string peer :=
  set_peers [live; Unreachable; live] node0.

(** The ledger after [three_calls] for agent a1: timestamps 10, 20, 30. *)
Definition chain3 : XenoChain Profile string :=
  outcome_state (append_all compute_hash encode "a1" three_calls XenoChain_init).

(** A second block of agent a1, chained to [b1]. *)
Definition b2 : BlockRecord Profile string := block "a1" 20 (Some (hash b1)) [].

End Sample.

(** ** The remaining queries and the synchronisation path

    [add_peer] is left out: it compares peers by object identity, which a
    list of peer states does not carry. *)

(** Where a Python slice bound [k] falls in a list of length [len]: a
    negative bound counts from the end, and both are clamped to the list. *)
Definition py_slice_index (k : Z) (len : nat) : nat :=
  Z.to_nat (if k <? 0 then Z.max 0 (Z.of_nat len + k)
            else Z.min k (Z.of_nat len)).

(** [l[k:]] *)
Definition py_slice_from {A : Type} (k : Z) (l : list A) : list A :=
  drop (py_slice_index k (length l)) l.

(** [l[:k]] *)
Definition py_slice_to {A : Type} (k : Z) (l : list A) : list A :=
  take (py_slice_index k (length l)) l.

(** One step of a stable descending sort: [x], which stood before all of
    [s] in the input, goes in front of the first element whose key is not
    larger than its own. *)
Fixpoint insert_desc {A : Type} (key : A -> Q) (x : A) (s : list A) : list A :=
  match s with
  | [] => [x]
  | y :: s' =>
      if Qle_bool (key y) (key x) then x :: s
      else y :: insert_desc key x s'
  end.

(** [sorted(l, key=key, reverse=True)]: descending by key, elements with
    equal keys in their input order. *)
Definition sorted_desc {A : Type} (key : A -> Q) (l : list A) : list A :=
  foldr (insert_desc key) [] l.

(** An entry of [get_entangled_states]. *)
Record EntangledState : Type := mkEntangledState {
  ent_agent_id : string;
  ent_block_hash : string;
  ent_state : option AgentState
}.

(** An entry of [get_global_knowledge]. *)
Record Knowledge : Type := mkKnowledge {
  kn_agent_id : string;
  kn_block_hash : string;
  kn_timestamp : Q;
  kn_state : option AgentState
}.

Section Queries.

Context {Scan MetaVal : Type}.
Variable decode : Scan -> Q -> Ranges.

(** [get_history] *)
Definition get_history (a : string) (limit : Z)
    : M (XenoChain Scan MetaVal) (list (BlockRecord Scan MetaVal)) :=
  l ← agent_blocks_getitem a;
  mret (match l with
        | [] => []
        | _ :: _ => py_slice_from (- limit) l
        end).

(** [get_block] *)
Definition get_block (block_hash : string)
    : M (XenoChain Scan MetaVal) (option (BlockRecord Scan MetaVal)) :=
  gets (fun c => hash_index c !! block_hash).

(** The dependency loop of [get_entangled_states]; [acc] is the list built
    so far. *)
Fixpoint entangled_loop (delta_t now : Q) (deps : list string)
    (acc : list EntangledState)
    : M (XenoChain Scan MetaVal) (list EntangledState) :=
  match deps with
  | [] => mret acc
  | dep_hash :: rest =>
      idx ← gets hash_index;
      match idx !! dep_hash with
      | None => entangled_loop delta_t now rest acc
      | Some dep_block =>
          state ← _convert_ranges_to_state (agent_id dep_block)
                    (decode (scan dep_block) delta_t) (Some dep_block) now;
          entangled_loop delta_t now rest
            (acc ++ [mkEntangledState (agent_id dep_block) (hash dep_block) state])
      end
  end.

(** [get_entangled_states] *)
Definition get_entangled_states (a : string) (delta_t now : Q)
    : M (XenoChain Scan MetaVal) (list EntangledState) :=
  l ← agent_blocks_getitem a;
  match last l with
  | None => mret []
  | Some block => entangled_loop delta_t now (dependencies block) []
  end.

(** The decoding loop of [get_global_knowledge]. *)
Fixpoint knowledge_loop {St : Type} (delta_t now : Q)
    (recent_blocks : list (BlockRecord Scan MetaVal)) (acc : list Knowledge)
    : M St (list Knowledge) :=
  match recent_blocks with
  | [] => mret acc
  | block :: rest =>
      state ← _convert_ranges_to_state (agent_id block)
                (decode (scan block) delta_t) (Some block) now;
      knowledge_loop delta_t now rest
        (acc ++ [mkKnowledge (agent_id block) (hash block) (timestamp block) state])
  end.

(** [get_global_knowledge] *)
Definition get_global_knowledge (delta_t : Q) (limit : Z) (now : Q)
    : M (XenoChain Scan MetaVal) (list Knowledge) :=
  recent_blocks ← gets (fun c => py_slice_to limit (sorted_desc timestamp (blocks c)));
  knowledge_loop delta_t now recent_blocks [].

(** [ConsensusNode.get_recent_blocks] *)
Definition get_recent_blocks {P : Type} (limit : Z)
    : M (ConsensusNode Scan MetaVal P) (list (BlockRecord Scan MetaVal)) :=
  gets (fun self => py_slice_to limit (sorted_desc timestamp (blocks (chain self)))).

(** What [sync_with_peers] needs of a peer: [get_recent_blocks]. *)
Class PeerSource (P : Type) : Type := {
  peer_get_recent_blocks : Z -> M P (list (BlockRecord Scan MetaVal))
}.

#[export] Instance ConsensusNode_PeerSource {P : Type}
    : PeerSource (ConsensusNode Scan MetaVal P) :=
  {| peer_get_recent_blocks := get_recent_blocks |}.

(** [await peer.get_recent_blocks(100)] for the peer at position [i]. *)
Definition fetch_peer {P : Type} `{!PeerSource P} (i : nat)
    : M (ConsensusNode Scan MetaVal P) (list (BlockRecord Scan MetaVal)) :=
  fun self =>
    match peers self !! i with
    | None => Done [] self
    | Some peer =>
        match peer_get_recent_blocks 100 peer with
        | Done bs peer' => Done bs (set_peers (<[i := peer']> (peers self)) self)
        | Raised e peer' => Raised e (set_peers (<[i := peer']> (peers self)) self)
        end
    end.

(** The inner loop of [sync_with_peers]: [receive_block] on each block. *)
Fixpoint receive_each {P : Type} (bs : list (BlockRecord Scan MetaVal))
    : M (ConsensusNode Scan MetaVal P) unit :=
  match bs with
  | [] => mret tt
  | block :: rest => receive_block block ;; receive_each rest
  end.

(** The outer loop of [sync_with_peers], from position [i], [count] to go. *)
Fixpoint sync_from {P : Type} `{!PeerSource P} (i count : nat)
    : M (ConsensusNode Scan MetaVal P) unit :=
  match count with
  | O => mret tt
  | S count' =>
      peer_blocks ← fetch_peer i;
      receive_each peer_blocks ;;
      sync_from (S i) count'
  end.

(** [sync_with_peers] *)
Definition sync_with_peers {P : Type} `{!PeerSource P}
    : M (ConsensusNode Scan MetaVal P) unit :=
  n ← gets (fun self => length (peers self));
  sync_from 0 n.

End Queries.

(** The ledger's indexes agree with each other: every agent's chain is the
    global sequence filtered by agent, every index entry is a block of the
    global sequence stored under its own hash, and every block of the global
    sequence has its hash in the index. *)
Definition ledger_consistent {Scan MetaVal : Type} (c : XenoChain Scan MetaVal) : Prop :=
  (forall a, agent_seq c a = filter (fun b => agent_id b = a) (blocks c)) /\
  (forall h b, hash_index c !! h = Some b -> hash b = h /\ b ∈ blocks c) /\
  (forall b, b ∈ blocks c -> is_Some (hash_index c !! hash b)).


(** The codec gives back, as interval midpoints, the three metrics of the
    profile it encoded. *)
Definition decodes_to_profile (ranges : Ranges) (p : Profile) : Prop :=
  exists w h s,
    ranges !! "Wealth" = Some w /\ ranges !! "Hunger" = Some h /\
    ranges !! "Status" = Some s /\
    (midpoint w == inject_Z (Wealth p))%Q /\
    (midpoint h == inject_Z (Hunger p))%Q /\
    (midpoint s == inject_Z (Status p))%Q.

(** The decoder never returns a non-empty mapping that lacks one of the
    three intervals. *)
Definition decode_complete {Scan : Type} (decode : Scan -> Q -> Ranges) : Prop :=
  forall sc dt,
    decode sc dt = ∅ \/
    (is_Some (decode sc dt !! "Wealth") /\ is_Some (decode sc dt !! "Hunger") /\
     is_Some (decode sc dt !! "Status")).

(** Two ledger states with the same content: the same global sequence, the
    same index and the same chain for every agent (an empty [defaultdict]
    entry more or less makes no difference). *)
Definition same_content {Scan MetaVal : Type} (c c' : XenoChain Scan MetaVal) : Prop :=
  blocks c' = blocks c /\
  hash_index c' = hash_index c /\
  (forall a, agent_seq c' a = agent_seq c a).

(** [validate_block]'s verdict, as a condition on the node's index. *)
Definition acceptable {Scan MetaVal P : Type}
    (n : ConsensusNode Scan MetaVal P) (b : BlockRecord Scan MetaVal) : Prop :=
  is_Some (hash_index (chain n) !! hash b) \/ prerequisites_met n b.

(** Equality of numbers is decidable. *)
#[export] Instance Qeq_decision (x y : Q) : Decision (x == y)%Q := Qeq_dec x y.

(** Descending order of timestamps (ties allowed). *)
Definition newer_first {Scan MetaVal : Type} (x y : BlockRecord Scan MetaVal) : Prop :=
  (timestamp y <= timestamp x)%Q.

(** Strictly ascending order of timestamps. *)
Definition strictly_older {Scan MetaVal : Type} (x y : BlockRecord Scan MetaVal) : Prop :=
  (timestamp x < timestamp y)%Q.


(** ** More sample data *)

Module Scenario.

Import Sample.

(** [node1] after it has also accepted [b2]: agent a1's chain is [b1; b2]. *)
Definition node2 : ConsensusNode Profile string peer :=
  outcome_state (receive_block b2 node1).

(** A second successor of [b1], competing with [b2]. *)
Definition b2_fork : BlockRecord Profile string := block "a1" 25 (Some (hash b1)) [].

(** [node0] after [b2] arrived before its predecessor [b1]. *)
Definition node_waiting : ConsensusNode Profile string peer :=
  outcome_state (receive_block b2 node0).

(** The first block of [chain3] and the blocks after it. *)
Definition chain3_first : BlockRecord Profile string :=
  default b1 (head (blocks chain3)).

Definition chain3_rest : list (BlockRecord Profile string) := tail (blocks chain3).

(** A peer node that holds [chain3], and a fresh node that has it as its
    only peer. *)
Definition holder : ConsensusNode Profile string Empty_set :=
  set_chain chain3 (ConsensusNode_init "holder").

Definition newcomer
    : ConsensusNode Profile string (ConsensusNode Profile string Empty_set) :=
  set_peers [holder] (ConsensusNode_init "newcomer").

End Scenario.

(** * Properties *)

(** ** Numbers *)

Lemma Qltb_lt (x y : Q) : Qltb x y = true <-> (x < y)%Q.
Proof.
  unfold Qltb. rewrite negb_true_iff, <- not_true_iff_false, Qle_bool_iff.
  split; [apply Qnot_le_lt | apply Qlt_not_le].
Qed.


Lemma quot_neg_numerator (n : Z) (d : positive) :
  n <= 0 -> Z.quot n (Z.pos d) = - ((- n) / Z.pos d).
Proof.
  intros Hn.
  pose proof (Z.quot_opp_l n (Z.pos d) ltac:(lia)) as Hq.
  rewrite <- (Z.quot_div_nonneg (- n) (Z.pos d)) by lia. lia.
Qed.

(** Truncation is the floor of a non-negative number. *)
Lemma py_int_nonneg (x : Q) : (0 <= x)%Q -> py_int x = Qfloor x.
Proof.
  destruct x as [n d]. unfold Qle, py_int, Qfloor. simpl. intros H.
  apply Z.quot_div_nonneg; lia.
Qed.

(** Truncation is the ceiling of a number that is not positive. *)
Lemma py_int_nonpos (x : Q) : (x <= 0)%Q -> py_int x = Qceiling x.
Proof.
  destruct x as [n d]. unfold Qle, py_int, Qceiling, Qfloor. simpl. intros H.
  apply quot_neg_numerator. lia.
Qed.

Lemma py_int_truncate (x : Q) : py_int x = truncate_toward_zero x.
Proof.
  unfold truncate_toward_zero. destruct (Qle_bool 0 x) eqn:Hx.
  - apply py_int_nonneg. by apply Qle_bool_iff.
  - apply py_int_nonpos. apply Qlt_le_weak, Qltb_lt.
    unfold Qltb. by rewrite Hx.
Qed.



(** ** State to profile and back *)

(** The specification's worked example: two skills, accuracy 0.8 and three
    learning iterations give Wealth 350, Hunger 20, Status 80. *)
Example convert_state_to_profile_a1 :
  _convert_state_to_profile "a1" Sample.snap_a1 = mkProfile "a1" 350 20 80 None.
Proof. reflexivity. Qed.



Lemma ranges_getitem_Some {St : Type} (ranges : Ranges) (k : string)
    (r : Q * Q) (s : St) :
  ranges !! k = Some r -> ranges_getitem ranges k s = Done r s.
Proof. intros H. unfold ranges_getitem. by rewrite H. Qed.

Lemma ranges_getitem_None {St : Type} (ranges : Ranges) (k : string) (s : St) :
  ranges !! k = None -> ranges_getitem ranges k s = Raised (KeyError k) s.
Proof. intros H. unfold ranges_getitem. by rewrite H. Qed.

Lemma length_skill_names (n : Z) : length (skill_names n) = Z.to_nat n.
Proof. unfold skill_names. by rewrite length_fmap, length_seq. Qed.

Section Reconstruction.

Context {Scan MetaVal St : Type}.
Implicit Types (block : option (BlockRecord Scan MetaVal)) (s : St).

(** An empty decode result reconstructs to [None]. *)
Lemma convert_ranges_to_state_empty (a : string) block (now : Q) s :
  _convert_ranges_to_state a ∅ block now s = Done None s.
Proof. unfold _convert_ranges_to_state. by rewrite decide_True. Qed.

(** A non-empty mapping without a Wealth interval raises [KeyError]: the
    three intervals are a precondition of the reconstruction. *)
Lemma convert_ranges_to_state_missing_wealth (a : string) (ranges : Ranges)
    block (now : Q) s :
  ranges <> ∅ -> ranges !! "Wealth" = None ->
  _convert_ranges_to_state a ranges block now s = Raised (KeyError "Wealth") s.
Proof.
  intros Hne Hw. unfold _convert_ranges_to_state.
  rewrite decide_False by done. unfold mbind, M_bind.
  by rewrite (ranges_getitem_None _ _ _ Hw).
Qed.


End Reconstruction.

(** ** Python's [min] *)

Section MinScan.

Context {A : Type} (key : A -> Q).


End MinScan.

(** ** The ledger *)

(** Unfold the monad's plumbing in a goal. *)
Ltac run_step :=
  unfold mbind, M_bind, mret, M_ret, gets, modify, raise, on_chain, zoom;
  simpl.

Section ChainFacts.

Context {Scan MetaVal : Type}.
Variable compute_hash :
  string -> Scan -> Q -> option string -> list string ->
  gmap string MetaVal -> string.
Variable encode : Profile -> Q -> Scan.
Variable decode : Scan -> Q -> Ranges.

Implicit Types (c : XenoChain Scan MetaVal) (b : BlockRecord Scan MetaVal).
Implicit Types (a : string) (l : list (BlockRecord Scan MetaVal)).

(** Reading the [defaultdict] returns the agent's chain and changes nothing
    a query can see. *)
Lemma agent_blocks_getitem_run a c :
  exists c',
    agent_blocks_getitem a c = Done (agent_seq c a) c' /\
    blocks c' = blocks c /\
    hash_index c' = hash_index c /\
    (forall a', agent_seq c' a' = agent_seq c a').
Proof.
  unfold agent_blocks_getitem, agent_seq. run_step.
  destruct (agent_blocks c !! a) as [l |] eqn:Ha; simpl.
  - by exists c.
  - eexists. split; [reflexivity |]. repeat split. intros a'. simpl.
    destruct (decide (a = a')) as [<- | Hne].
    + by rewrite lookup_insert_eq, Ha.
    + by rewrite lookup_insert_ne.
Qed.

(** When the agent has an entry the read leaves the ledger as it is. *)
Lemma agent_blocks_getitem_Some a c l :
  agent_blocks c !! a = Some l -> agent_blocks_getitem a c = Done l c.
Proof. intros Ha. unfold agent_blocks_getitem. run_step. by rewrite Ha. Qed.

Lemma agent_seq_nonempty a c :
  agent_seq c a <> [] -> agent_blocks c !! a = Some (agent_seq c a).
Proof. unfold agent_seq. by destruct (agent_blocks c !! a). Qed.

(** [add_block] always returns; it puts the new block at the end of the
    global sequence and of the agent's chain and into the hash index. *)
Lemma add_block_run a state delta_t deps meta now c :
  let b := appended_block compute_hash encode a state delta_t deps meta now c in
  exists c',
    add_block compute_hash encode a state delta_t deps meta now c
      = Done (hash b) c' /\
    blocks c' = blocks c ++ [b] /\
    agent_seq c' a = agent_seq c a ++ [b] /\
    (forall a', a' <> a -> agent_seq c' a' = agent_seq c a') /\
    hash_index c' = <[hash b := b]> (hash_index c).
Proof.
  intros b. subst b. unfold add_block, appended_block, agent_blocks_getitem, agent_seq.
  run_step. destruct (agent_blocks c !! a) as [l |] eqn:Ha; simpl.
  - rewrite Ha. simpl. eexists. split; [reflexivity |]. simpl.
    rewrite lookup_insert_eq. repeat split.
    intros a' Hne. by rewrite lookup_insert_ne.
  - rewrite lookup_insert_eq. simpl. eexists. split; [reflexivity |]. simpl.
    rewrite lookup_insert_eq. repeat split.
    intros a' Hne. by rewrite !lookup_insert_ne.
Qed.

(** Positions in a linked run. *)
Lemma linked_from_lookup (prev : option string) l :
  linked_from prev l ->
  (forall b, l !! 0%nat = Some b -> prev_hash b = prev) /\
  (forall i bi bp, l !! S i = Some bi -> l !! i = Some bp ->
     prev_hash bi = Some (hash bp)).
Proof.
  revert prev. induction l as [| x l IH]; intros prev Hl; simpl in *.
  - by split.
  - destruct Hl as [Hx Hl]. destruct (IH _ Hl) as [IH0 IHS]. split.
    + by intros b [= <-].
    + intros [| i] bi bp Hi Hp; simpl in *.
      * injection Hp as <-. by apply IH0.
      * by eapply IHS.
Qed.

(** Consecutive appends for one agent extend its chain by a linked run. *)
Lemma append_all_run a (calls : list (AppendCall MetaVal)) c :
  exists hs c' new,
    append_all compute_hash encode a calls c = Done hs c' /\
    agent_seq c' a = agent_seq c a ++ new /\
    length new = length calls /\
    hs = hash <$> new /\
    linked_from (hash <$> last (agent_seq c a)) new.
Proof.
  revert c. induction calls as [| call calls IH]; intros c; simpl.
  - exists [], c, []. by rewrite app_nil_r.
  - run_step.
    destruct (add_block_run a (call_state call) (call_delta_t call)
                (call_dependencies call) (call_metadata call) (call_now call) c)
      as (c1 & Hrun & _ & Hseq & _ & _).
    rewrite Hrun. destruct (IH c1) as (hs & c' & new & Hrun' & Hseq' & Hlen & Hhs & Hlink).
    rewrite Hrun'. eexists _, c', (_ :: new). split; [reflexivity |].
    rewrite Hseq', Hseq, <- app_assoc. split; [done |]. simpl.
    split; [by rewrite Hlen |]. split; [by rewrite Hhs |].
    split; [done |]. by rewrite Hseq, last_snoc in Hlink.
Qed.

(** C5: from a state in which agent A has no blocks, N consecutive
    [add_block] calls for A leave a chain of N blocks in which block 0 has no
    previous hash and block i (1 <= i < N) has the hash of block i-1 as its
    previous hash. *)
Theorem add_block_chain_linked a (calls : list (AppendCall MetaVal)) c :
  agent_seq c a = [] ->
  exists hs c',
    append_all compute_hash encode a calls c = Done hs c' /\
    length (agent_seq c' a) = length calls /\
    (forall b, agent_seq c' a !! 0%nat = Some b -> prev_hash b = None) /\
    (forall i bi bp,
       agent_seq c' a !! S i = Some bi -> agent_seq c' a !! i = Some bp ->
       prev_hash bi = Some (hash bp)).
Proof.
  intros Hempty.
  destruct (append_all_run a calls c) as (hs & c' & new & Hrun & Hseq & Hlen & _ & Hlink).
  exists hs, c'. rewrite Hseq, Hempty in *. simpl in *.
  split; [done |]. split; [done |]. by apply linked_from_lookup in Hlink.
Qed.

(** [get_state] on an explicit, known hash of the agent's own block. *)
Lemma get_state_by_hash a (delta_t now : Q) (h : string) b c :
  h <> "" -> hash_index c !! h = Some b -> agent_id b = a ->
  get_state decode a delta_t (Some h) now c
  = _convert_ranges_to_state a (decode (scan b) delta_t) (Some b) now c.
Proof.
  intros Hh Hidx Ha. unfold get_state. simpl.
  rewrite (proj2 (String.eqb_neq h "") Hh). run_step.
  rewrite Hidx. by rewrite decide_True.
Qed.

(** [get_state] without a hash on an agent that has blocks. *)
Lemma get_state_latest a (delta_t now : Q) (bh : option string) b c :
  truthy_str bh = false -> last (agent_seq c a) = Some b ->
  get_state decode a delta_t bh now c
  = _convert_ranges_to_state a (decode (scan b) delta_t) (Some b) now c.
Proof.
  intros Hbh Hlast. unfold get_state. rewrite Hbh.
  assert (Hne : agent_seq c a <> []) by (intros Heq; by rewrite Heq in Hlast).
  unfold mbind, M_bind.
  rewrite (agent_blocks_getitem_Some _ _ _ (agent_seq_nonempty _ _ Hne)).
  by rewrite Hlast.
Qed.


(** C10: when the agent has blocks and the codec decodes the selected
    block's scan to an empty mapping, [get_state] returns [None]: not-found
    does not mean that the agent has no block. *)
Theorem get_state_none_on_empty_decode a (delta_t now : Q)
    (bh : option string) b c :
  agent_seq c a <> [] ->
  (truthy_str bh = false /\ last (agent_seq c a) = Some b) \/
  (exists h, bh = Some h /\ h <> "" /\ hash_index c !! h = Some b /\
             agent_id b = a) ->
  decode (scan b) delta_t = ∅ ->
  get_state decode a delta_t bh now c = Done None c.
Proof.
  intros _ [[Hbh Hlast] | (h & -> & Hh & Hidx & Ha)] Hdec.
  - rewrite (get_state_latest _ _ _ _ b) by done.
    rewrite Hdec. apply convert_ranges_to_state_empty.
  - rewrite (get_state_by_hash _ _ _ _ b) by done.
    rewrite Hdec. apply convert_ranges_to_state_empty.
Qed.

End ChainFacts.

(** ** The consensus node *)

Section NodeFacts.

Context {Scan MetaVal P : Type}.

Implicit Types (n : ConsensusNode Scan MetaVal P) (b : BlockRecord Scan MetaVal).

(** The dependency loop reads the index and nothing else. *)
Lemma check_dependencies_run (deps : list string) n :
  exists v,
    check_dependencies deps n = Done v n /\
    (v = true <-> forall d, d ∈ deps -> is_Some (hash_index (chain n) !! d)).
Proof.
  induction deps as [| d deps IH]; simpl.
  - exists true. split; [done |]. split; [| done]. intros _ d Hd.
    by apply not_elem_of_nil in Hd.
  - run_step. destruct (hash_index (chain n) !! d) as [bd |] eqn:Hd.
    + destruct IH as (v & Hrun & Hv). exists v. split; [done |].
      rewrite Hv. split.
      * intros Hall d' [-> | Hd']%elem_of_cons; [by rewrite Hd | by apply Hall].
      * intros Hall d' Hd'. apply Hall. by right.
    + exists false. split; [done |]. split; [done |]. intros Hall.
      destruct (Hall d) as [x Hx]; [by left |]. congruence.
Qed.

(** [validate_block] returns without touching the node, and says yes in
    exactly two situations. *)
Lemma validate_block_run b n :
  exists v,
    validate_block b n = Done v n /\
    (v = true <->
     is_Some (hash_index (chain n) !! hash b) \/ prerequisites_met n b).
Proof.
  unfold validate_block, prerequisites_met. run_step.
  destruct (decide (is_Some (hash_index (chain n) !! hash b))) as [Hin | Hnot].
  { exists true. split; [done |]. split; [by left | done]. }
  destruct (check_dependencies_run (dependencies b) n) as (vd & Hdeps & Hvd).
  destruct (prev_hash b) as [h |] eqn:Hprev; simpl.
  - destruct (String.eqb h "") eqn:Hh; simpl.
    + apply String.eqb_eq in Hh. subst h. exists vd. split; [done |].
      rewrite Hvd. split; [intros Hall; right; split; [| done] | ].
      * by intros h [= <-].
      * by intros [? | [_ ?]].
    + apply String.eqb_neq in Hh.
      destruct (hash_index (chain n) !! h) as [pb |] eqn:Hpb.
      * destruct (decide (agent_id pb = agent_id b)) as [Hag | Hag].
        -- exists vd. split; [done |]. rewrite Hvd. split.
           ++ intros Hall. right. split; [| done].
              intros h' [= <-] _. by exists pb.
           ++ by intros [? | [_ ?]].
        -- exists false. split; [done |]. split; [done |].
           intros [? | [Hp _]]; [done |].
           destruct (Hp h eq_refl Hh) as (pb' & Hpb' & Hag'). congruence.
      * exists false. split; [done |]. split; [done |].
        intros [? | [Hp _]]; [done |].
        destruct (Hp h eq_refl Hh) as (pb' & Hpb' & _). congruence.
  - exists vd. split; [done |]. rewrite Hvd. split.
    + intros Hall. right. by split.
    + by intros [? | [_ ?]].
Qed.

(** C2: [validate_block] accepts exactly when the block's hash is already
    indexed, or its non-empty previous hash (if any) is indexed under a block
    of the same agent and all its dependencies are indexed; it leaves the
    node as it found it. *)
Theorem validate_block_spec b n :
  exists v,
    validate_block b n = Done v n /\
    (v = true <->
     is_Some (hash_index (chain n) !! hash b) \/
     ((forall h, prev_hash b = Some h -> h <> "" ->
         exists pb, hash_index (chain n) !! h = Some pb /\
                    agent_id pb = agent_id b) /\
      (forall d, d ∈ dependencies b -> is_Some (hash_index (chain n) !! d)))).
Proof. exact (validate_block_run b n). Qed.

(** An accepted delivery: what [receive_block] does to the node. *)
Lemma receive_block_accept b n :
  validate_block b n = Done true n ->
  exists n',
    receive_block b n = Done true n' /\
    blocks (chain n') = blocks (chain n) ++ [b] /\
    agent_seq (chain n') (agent_id b) = agent_seq (chain n) (agent_id b) ++ [b] /\
    hash_index (chain n') = <[hash b := b]> (hash_index (chain n)) /\
    pending_blocks n' = filter (fun x => hash x ≠ hash b) (pending_blocks n) /\
    peers n' = peers n.
Proof.
  intros Hval. unfold receive_block, mbind, M_bind. rewrite Hval.
  unfold agent_blocks_getitem, agent_seq. run_step.
  destruct (agent_blocks (chain n) !! agent_id b) as [l |] eqn:Ha; simpl.
  - eexists. split; [reflexivity |]. simpl. by rewrite lookup_insert_eq.
  - eexists. split; [reflexivity |]. simpl. by rewrite lookup_insert_eq.
Qed.

(** A rejected delivery: the block goes to the end of the pending list. *)
Lemma receive_block_reject b n :
  validate_block b n = Done false n ->
  receive_block b n = Done false (set_pending_blocks (fun l => l ++ [b]) n).
Proof.
  intros Hval. unfold receive_block, mbind, M_bind. by rewrite Hval.
Qed.

(** [receive_block] never raises. *)
Lemma receive_block_done b n : exists r n', receive_block b n = Done r n'.
Proof.
  destruct (validate_block_run b n) as ([|] & Hval & _).
  - destruct (receive_block_accept b n Hval) as (n' & Hrun & _). eauto.
  - rewrite (receive_block_reject b n Hval). eauto.
Qed.

(** C1, as the code has it: re-delivering a block whose hash is indexed
    returns true, but the block is appended once more to the global sequence
    and to its agent's chain and the index entry is rewritten; the delivery
    is not idempotent. *)
Theorem receive_block_redelivery_appends b n :
  is_Some (hash_index (chain n) !! hash b) ->
  (exists n',
     receive_block b n = Done true n' /\
     blocks (chain n') = blocks (chain n) ++ [b] /\
     agent_seq (chain n') (agent_id b) = agent_seq (chain n) (agent_id b) ++ [b] /\
     hash_index (chain n') = <[hash b := b]> (hash_index (chain n))) /\
  ~ redelivery_idempotent b n.
Proof.
  intros Hin.
  assert (Hval : validate_block b n = Done true n).
  { destruct (validate_block_run b n) as (v & Hrun & Hv).
    rewrite Hrun. f_equal. apply Hv. by left. }
  destruct (receive_block_accept b n Hval) as (n' & Hrun & Hbl & Hseq & Hidx & _).
  split; [by exists n' |].
  intros (n'' & Hrun' & Hbl' & _). rewrite Hrun in Hrun'.
  injection Hrun' as <-. rewrite Hbl in Hbl'.
  apply (f_equal length) in Hbl'. rewrite length_app in Hbl'. simpl in Hbl'. lia.
Qed.

(** Acceptance looks at the index only: any block whose prerequisites are
    met is accepted and indexed under whatever hash it carries. *)
Lemma receive_block_trusts_hash b n :
  prerequisites_met n b ->
  validate_block b n = Done true n /\
  exists n',
    receive_block b n = Done true n' /\
    hash_index (chain n') !! hash b = Some b /\
    b ∈ blocks (chain n') /\
    b ∈ agent_seq (chain n') (agent_id b).
Proof.
  intros Hpre.
  assert (Hval : validate_block b n = Done true n).
  { destruct (validate_block_run b n) as (v & Hrun & Hv).
    rewrite Hrun. f_equal. apply Hv. by right. }
  split; [done |].
  destruct (receive_block_accept b n Hval) as (n' & Hrun & Hbl & Hseq & Hidx & _).
  exists n'. split; [done |]. rewrite Hbl, Hseq, Hidx.
  split; [apply lookup_insert_eq |]. split; apply elem_of_app; right; by left.
Qed.

(** C4, amended: a rejected delivery leaves the chain alone and appends the
    block to the pending list without looking for an entry of the same hash,
    so the number of pending entries with that hash grows by one. *)
Theorem receive_block_reject_appends b n n' :
  receive_block b n = Done false n' ->
  pending_blocks n' = pending_blocks n ++ [b] /\
  chain n' = chain n /\
  peers n' = peers n /\
  length (filter (fun x => hash x = hash b) (pending_blocks n'))
  = S (length (filter (fun x => hash x = hash b) (pending_blocks n))).
Proof.
  intros Hrun. destruct (validate_block_run b n) as ([|] & Hval & _).
  - destruct (receive_block_accept b n Hval) as (n'' & Hrun' & _). congruence.
  - rewrite (receive_block_reject b n Hval) in Hrun. injection Hrun as <-.
    simpl. repeat split. rewrite filter_app, length_app.
    rewrite filter_cons_True by done. simpl. lia.
Qed.


Lemma string_cons_neq (ch : Ascii.ascii) (s : string) : String ch s <> s.
Proof.
  revert ch. induction s as [| ch' s IH]; intros ch; [done |].
  intros [= _ Hs]. by apply IH in Hs.
Qed.

(** C9: whatever the block hash function, there is a block whose stored hash
    is not the hash of its content and which, its previous-hash and
    dependency prerequisites being met, [validate_block] accepts and
    [receive_block] indexes under the forged hash. *)
Theorem forged_hash_accepted
    (compute_hash : string -> Scan -> Q -> option string -> list string ->
                    gmap string MetaVal -> string)
    n (a : string) (sc : Scan) (ts : Q) (prev : option string)
    (deps : list string) (meta : gmap string MetaVal) :
  prerequisites_met n (new_BlockRecord compute_hash a sc ts prev deps meta) ->
  exists forged,
    let b := mkBlockRecord a sc ts prev deps meta forged in
    ~ hash_consistent compute_hash b /\
    validate_block b n = Done true n /\
    exists n',
      receive_block b n = Done true n' /\
      hash_index (chain n') !! forged = Some b /\
      b ∈ blocks (chain n') /\
      b ∈ agent_seq (chain n') a.
Proof.
  intros Hpre. exists ("x" +:+ compute_hash a sc ts prev deps meta).
  intros b. split.
  - unfold hash_consistent. simpl. apply string_cons_neq.
  - by apply (receive_block_trusts_hash b n).
Qed.

End NodeFacts.

(** ** Broadcast *)

Section BroadcastFacts.

Context {Scan MetaVal P : Type} `{!PeerLike (Scan:=Scan) (MetaVal:=MetaVal) P}.

Implicit Types (n : ConsensusNode Scan MetaVal P) (b : BlockRecord Scan MetaVal).
Implicit Types (p : P) (ps : list P).

Lemma set_peers_id n : set_peers (peers n) n = n.
Proof. by destruct n. Qed.

(** The loop, started behind the peers [served] that have been served: it
    serves the peers [pre], whose calls return, and then either ends or
    stops at the first peer whose call raises. *)
Lemma broadcast_from_run b (served pre post : list P) n :
  peers n = served ++ pre ++ post ->
  Forall (fun p => is_done (peer_receive_block b p) = true) pre ->
  match post with
  | [] =>
      broadcast_from b (length served) (length pre) n
      = Done tt (set_peers (served ++ (peer_after b <$> pre)) n)
  | p :: rest =>
      forall e p', peer_receive_block b p = Raised e p' ->
        broadcast_from b (length served) (length (pre ++ post)) n
        = Raised e (set_peers (served ++ (peer_after b <$> pre) ++ p' :: rest) n)
  end.
Proof.
  revert served n. induction pre as [| q pre IH]; intros served n Hpeers Hok; simpl in *.
  - destruct post as [| p rest].
    + rewrite app_nil_r in *. by rewrite <- Hpeers, set_peers_id.
    + intros e p' Hraise. simpl. unfold call_peer. run_step.
      rewrite Hpeers, list_lookup_middle by done. rewrite Hraise.
      by rewrite <- (Nat.add_0_r (length served)), insert_app_r.
  - inversion Hok as [| ? ? Hq Hok']; subst.
    assert (Hstep : call_peer (length served) b n
                    = Done tt (set_peers (served ++ peer_after b q :: pre ++ post) n)).
    { unfold call_peer, peer_after. rewrite Hpeers, list_lookup_middle by done.
      destruct (peer_receive_block b q) as [r q' | e q']; [| done]. simpl.
      by rewrite <- (Nat.add_0_r (length served)), insert_app_r. }
    specialize (IH (served ++ [peer_after b q])
                  (set_peers (served ++ peer_after b q :: pre ++ post) n)).
    rewrite length_app, Nat.add_1_r in IH. simpl in IH.
    rewrite <- !app_assoc in IH. simpl in IH.
    specialize (IH eq_refl Hok').
    destruct post as [| p rest].
    + unfold mbind, M_bind. rewrite Hstep. by rewrite IH.
    + intros e p' Hraise. unfold mbind, M_bind. rewrite Hstep.
      rewrite (IH e p' Hraise), <- app_assoc. done.
Qed.

(** C3, amended: [broadcast_block] calls [receive_block] on the peers in list
    order. While the calls return, each peer is left in the state its own
    call produces; if all return, so does the broadcast. When a peer's call
    raises, the broadcast raises the same error at once: the peers before it
    have received the block, the peers after it are not called. *)
Theorem broadcast_block_stops_at_failure b n (pre post : list P) :
  peers n = pre ++ post ->
  Forall (fun p => is_done (peer_receive_block b p) = true) pre ->
  match post with
  | [] => broadcast_block b n = Done tt (set_peers (peer_after b <$> pre) n)
  | p :: rest =>
      forall e p', peer_receive_block b p = Raised e p' ->
        broadcast_block b n
        = Raised e (set_peers ((peer_after b <$> pre) ++ p' :: rest) n)
  end.
Proof.
  intros Hpeers Hok. unfold broadcast_block. run_step.
  pose proof (broadcast_from_run b [] pre post n Hpeers Hok) as Hrun.
  rewrite Hpeers. destruct post as [| p rest]; simpl in *.
  - by rewrite app_nil_r.
  - done.
Qed.

End BroadcastFacts.

(** Peers that are consensus nodes never raise, so a broadcast among them
    reaches every one. *)
Lemma broadcast_block_among_nodes {Scan MetaVal P : Type}
    (b : BlockRecord Scan MetaVal)
    (n : ConsensusNode Scan MetaVal (ConsensusNode Scan MetaVal P)) :
  broadcast_block b n = Done tt (set_peers (peer_after b <$> peers n) n).
Proof.
  unfold broadcast_block. run_step.
  apply (broadcast_from_run b [] (peers n) [] n).
  - by rewrite app_nil_r.
  - apply Forall_forall. intros p _. simpl.
    by destruct (receive_block_done b p) as (r & p' & ->).
Qed.

(** ** Worked instances *)

Section Instances.

Import Sample.

(** The agent's three blocks, queried at time 15: the blocks stamped 10 and
    20 are equally close, and the earlier one in the chain is taken. *)
Example get_agent_at_time_tie :
  st_timestamp <$>
    (match get_agent_at_time decode "a1" 15 1 0 chain3 with
     | Done r _ => r
     | Raised _ _ => None
     end) = Some (inject_Z 10).
Proof. vm_compute. reflexivity. Qed.

(** The specification's scenario read back through a codec that decodes to
    point intervals: three skills are reported for Wealth 350, one learning
    iteration is left of the original three, and no training is needed. *)
Example get_state_after_add_block_a1 :
  match
    get_state decode "a1" 1 None 0
      (outcome_state
         (add_block compute_hash encode "a1" snap_a1 1 None None 10 XenoChain_init))
  with
  | Done (Some st) _ =>
      (length (st_skills st), st_learning_iterations st, st_needs_training st)
  | _ => (0%nat, 0, true)
  end = (3%nat, 1, false).
Proof. vm_compute. reflexivity. Qed.

(** C1 at a concrete node: [b1] delivered a second time. *)
Lemma receive_block_redelivery_appends_witness :
  (exists n',
     receive_block b1 node1 = Done true n' /\
     blocks (chain n') = blocks (chain node1) ++ [b1] /\
     agent_seq (chain n') (agent_id b1) = agent_seq (chain node1) (agent_id b1) ++ [b1] /\
     hash_index (chain n') = <[hash b1 := b1]> (hash_index (chain node1))) /\
  ~ redelivery_idempotent b1 node1.
Proof.
  apply (receive_block_redelivery_appends b1 node1).
  exists b1. vm_compute. reflexivity.
Defined.

(** C3, as stated, fails: with the first peer down, the broadcast stops and
    the second peer never receives the block. *)
Lemma broadcast_block_aborts_on_failure : ~ delivered_to_all b1 node_two_peers.
Proof.
  intros Hall. specialize (Hall 1%nat live eq_refl).
  vm_compute in Hall. discriminate Hall.
Qed.

(** C3, amended, at a node whose second of three peers is down. *)
Lemma broadcast_block_stops_at_failure_witness :
  broadcast_block b1 node_three_peers
  = Raised (PeerError "unreachable")
      (set_peers [peer_after b1 live; Unreachable; live] node_three_peers).
Proof.
  apply (broadcast_block_stops_at_failure b1 node_three_peers
           [live] [Unreachable; live] eq_refl).
  - constructor; [vm_compute; reflexivity | constructor].
  - reflexivity.
Defined.

(** C4, as stated, fails: the same orphan block delivered twice is twice in
    the pending list. *)
Lemma pending_blocks_not_deduplicated : ~ pending_deduplicated orphan node_pending.
Proof.
  intros Hdedup.
  specialize (Hdedup (outcome_state (receive_block orphan node_pending))).
  assert (Hrun : receive_block orphan node_pending
                 = Done false (outcome_state (receive_block orphan node_pending)))
    by (vm_compute; reflexivity).
  apply Hdedup in Hrun. vm_compute in Hrun. lia.
Qed.

(** C4, amended, at the first delivery of the orphan block. *)
Lemma receive_block_reject_appends_witness :
  pending_blocks node_pending = pending_blocks node0 ++ [orphan] /\
  chain node_pending = chain node0 /\
  peers node_pending = peers node0 /\
  length (filter (fun x => hash x = hash orphan) (pending_blocks node_pending))
  = S (length (filter (fun x => hash x = hash orphan) (pending_blocks node0))).
Proof.
  apply (receive_block_reject_appends orphan node0 node_pending).
  vm_compute. reflexivity.
Defined.

(** C5 for three appends to an empty ledger. *)
Lemma add_block_chain_linked_witness :
  exists hs c',
    append_all compute_hash encode "a1" three_calls XenoChain_init = Done hs c' /\
    length (agent_seq c' "a1") = 3%nat /\
    (forall b, agent_seq c' "a1" !! 0%nat = Some b -> prev_hash b = None) /\
    (forall i bi bp,
       agent_seq c' "a1" !! S i = Some bi -> agent_seq c' "a1" !! i = Some bp ->
       prev_hash bi = Some (hash bp)).
Proof.
  apply (add_block_chain_linked compute_hash encode "a1" three_calls XenoChain_init).
  reflexivity.
Defined.



(** C9 at a node that holds [b1]: a forged successor of [b1]. *)
Lemma forged_hash_accepted_witness :
  exists forged,
    let b := mkBlockRecord "a1" (scan b2) 20 (Some (hash b1)) [] ∅ forged in
    ~ hash_consistent compute_hash b /\
    validate_block b node1 = Done true node1 /\
    exists n',
      receive_block b node1 = Done true n' /\
      hash_index (chain n') !! forged = Some b /\
      b ∈ blocks (chain n') /\
      b ∈ agent_seq (chain n') "a1".
Proof.
  apply (forged_hash_accepted compute_hash node1 "a1" (scan b2) 20
           (Some (hash b1)) [] ∅).
  split.
  - intros h [= <-] _. exists b1. split; [vm_compute |]; reflexivity.
  - intros d Hd. inversion Hd.
Defined.

(** C10 on the three-block chain with a decoder that returns nothing. *)
Lemma get_state_none_on_empty_decode_witness :
  agent_seq chain3 "a1" <> [] /\
  get_state decode_nothing "a1" 1 None 0 chain3 = Done None chain3.
Proof.
  assert (Hne : agent_seq chain3 "a1" <> []).
  { intros Hnil. vm_compute in Hnil. discriminate Hnil. }
  split; [exact Hne |].
  eapply (get_state_none_on_empty_decode decode_nothing "a1" 1 0 None _ chain3 Hne).
  - left. split; [reflexivity | vm_compute; reflexivity].
  - reflexivity.
Defined.

End Instances.

(** * Further properties of the ledger *)

(** ** Consistency of the three indexes *)

Section Consistency.

Context {Scan MetaVal : Type}.
Variable compute_hash :
  string -> Scan -> Q -> option string -> list string ->
  gmap string MetaVal -> string.
Variable encode : Profile -> Q -> Scan.

Implicit Types (c : XenoChain Scan MetaVal) (b : BlockRecord Scan MetaVal).

Lemma ledger_consistent_init : ledger_consistent (@XenoChain_init Scan MetaVal).
Proof.
  split; [| split]; simpl.
  - intros a. unfold agent_seq. simpl. by rewrite lookup_empty.
  - intros h b Hb. by rewrite lookup_empty in Hb.
  - intros b Hb. by apply not_elem_of_nil in Hb.
Qed.

(** Appending one block to the global sequence, to its agent's chain and to
    the index keeps the indexes in agreement. *)
Lemma ledger_consistent_append c c' b :
  blocks c' = blocks c ++ [b] ->
  agent_seq c' (agent_id b) = agent_seq c (agent_id b) ++ [b] ->
  (forall a, a <> agent_id b -> agent_seq c' a = agent_seq c a) ->
  hash_index c' = <[hash b := b]> (hash_index c) ->
  ledger_consistent c -> ledger_consistent c'.
Proof.
  intros Hbl Hseq Hother Hidx (Hfilter & Hstored & Hindexed).
  split; [| split].
  - intros a. rewrite Hbl, filter_app. destruct (decide (a = agent_id b)) as [-> | Hne].
    + rewrite Hseq, Hfilter. f_equal. by rewrite filter_cons_True.
    + rewrite Hother, Hfilter by done.
      rewrite (filter_cons_False _ b) by (intros ?; by apply Hne).
      by rewrite filter_nil, app_nil_r.
  - intros h x. rewrite Hidx, Hbl, lookup_insert. case_decide as Hh.
    + intros [= <-]. split; [done |]. apply elem_of_app. right. by left.
    + intros Hx. destruct (Hstored h x Hx) as [? ?]. split; [done |].
      apply elem_of_app. by left.
  - intros x. rewrite Hbl, Hidx. intros [Hx | Hx%list_elem_of_singleton]%elem_of_app.
    + apply lookup_insert_is_Some'. right. by apply Hindexed.
    + subst x. apply lookup_insert_is_Some'. by left.
Qed.

(** X1: [add_block] keeps the three indexes in agreement: afterwards every
    agent's chain is still the global sequence filtered by agent, and the
    hash index still holds exactly blocks of the global sequence under their
    own hashes. *)
Theorem add_block_keeps_consistent (a : string) (state : Snapshot) (delta_t : Q)
    (deps : option (list string)) (meta : option (gmap string MetaVal))
    (now : Q) c :
  ledger_consistent c ->
  exists h c',
    add_block compute_hash encode a state delta_t deps meta now c = Done h c' /\
    ledger_consistent c'.
Proof.
  intros Hc.
  destruct (add_block_run compute_hash encode a state delta_t deps meta now c)
    as (c' & Hrun & Hbl & Hseq & Hother & Hidx).
  eexists _, c'. split; [exact Hrun |].
  by apply (ledger_consistent_append c c' _ Hbl Hseq Hother Hidx).
Qed.


(** The last two blocks of a linked run. *)
Lemma linked_from_last_two (prev : option string)
    (l : list (BlockRecord Scan MetaVal)) x y :
  linked_from prev (l ++ [x; y]) -> prev_hash y = Some (hash x).
Proof.
  revert prev. induction l as [| z l IH]; intros prev; simpl.
  - by intros (_ & ? & _).
  - intros [_ Hl]. by eapply IH.
Qed.


(** X3: a block is retrievable by the hash [add_block] returns for it, with
    the agent, timestamp, previous hash and dependencies it was built from;
    lookups of every other hash answer as before the call. *)
Theorem get_block_after_add_block (a : string) (state : Snapshot) (delta_t : Q)
    (deps : option (list string)) (meta : option (gmap string MetaVal))
    (now : Q) c :
  exists h c' b,
    add_block compute_hash encode a state delta_t deps meta now c = Done h c' /\
    get_block h c' = Done (Some b) c' /\
    hash b = h /\ agent_id b = a /\ timestamp b = now /\
    prev_hash b = hash <$> last (agent_seq c a) /\
    dependencies b = default [] deps /\
    last (agent_seq c' a) = Some b /\
    (forall h', h' <> h -> get_block h' c' = Done (hash_index c !! h') c').
Proof.
  destruct (add_block_run compute_hash encode a state delta_t deps meta now c)
    as (c' & Hrun & _ & Hseq & _ & Hidx).
  eexists _, c', _. split; [exact Hrun |]. unfold get_block, gets.
  rewrite Hidx, lookup_insert_eq, Hseq, last_snoc. repeat split.
  intros h' Hne. by rewrite lookup_insert_ne.
Qed.

End Consistency.

(** ** Receiving blocks *)

Section Receiving.

Context {Scan MetaVal P : Type}.

Implicit Types (n : ConsensusNode Scan MetaVal P) (b : BlockRecord Scan MetaVal).

Lemma validate_block_acceptable b n :
  acceptable n b -> validate_block b n = Done true n.
Proof.
  intros Hacc. destruct (validate_block_run b n) as (v & Hrun & Hv).
  rewrite Hrun. f_equal. by apply Hv.
Qed.

Lemma validate_block_unacceptable b n :
  ~ acceptable n b -> validate_block b n = Done false n.
Proof.
  intros Hacc. destruct (validate_block_run b n) as ([|] & Hrun & Hv); [| done].
  destruct Hacc. by apply Hv.
Qed.

(** The verdict depends on the ledger only. *)
Lemma acceptable_chain b n n' : chain n' = chain n -> acceptable n b -> acceptable n' b.
Proof. unfold acceptable, prerequisites_met. by intros ->. Qed.

(** An accepted delivery, with the chains of the other agents. *)
Lemma receive_block_accept_chain b n :
  acceptable n b ->
  exists n',
    receive_block b n = Done true n' /\
    blocks (chain n') = blocks (chain n) ++ [b] /\
    agent_seq (chain n') (agent_id b) = agent_seq (chain n) (agent_id b) ++ [b] /\
    (forall a, a <> agent_id b -> agent_seq (chain n') a = agent_seq (chain n) a) /\
    hash_index (chain n') = <[hash b := b]> (hash_index (chain n)) /\
    pending_blocks n' = filter (fun x => hash x ≠ hash b) (pending_blocks n) /\
    peers n' = peers n.
Proof.
  intros Hacc. unfold receive_block, mbind, M_bind.
  rewrite (validate_block_acceptable b n Hacc).
  unfold agent_blocks_getitem, agent_seq. run_step.
  destruct (agent_blocks (chain n) !! agent_id b) as [l |] eqn:Ha; simpl;
    (eexists; split; [reflexivity |]; simpl; rewrite lookup_insert_eq;
     repeat split; intros a Hne; by rewrite ?lookup_insert_ne).
Qed.

(** A rejected delivery, from the verdict. *)
Lemma receive_block_unacceptable b n :
  ~ acceptable n b ->
  receive_block b n = Done false (set_pending_blocks (fun l => l ++ [b]) n).
Proof.
  intros Hacc. apply receive_block_reject. by apply validate_block_unacceptable.
Qed.

(** X4: [receive_block] keeps the node's three indexes in agreement, whether
    it accepts the block or parks it. *)
Theorem receive_block_keeps_consistent b n :
  ledger_consistent (chain n) ->
  exists r n', receive_block b n = Done r n' /\ ledger_consistent (chain n').
Proof.
  intros Hc. destruct (validate_block_run b n) as ([|] & Hval & Hv).
  - destruct (receive_block_accept_chain b n) as (n' & Hrun & Hbl & Hseq & Hother & Hidx & _).
    { by apply Hv. }
    exists true, n'. split; [done |].
    by apply (ledger_consistent_append (chain n) (chain n') b).
  - rewrite (receive_block_reject b n Hval). by eexists _, _.
Qed.

(** X5: [receive_block] does not ask that a block's previous hash name the
    agent's latest block. A block whose prerequisites are met but whose
    previous hash is not the hash of the last block of its agent's chain is
    accepted and put at the end of that chain, which is then no longer
    linked block to block (a fork is taken in silently). *)
Theorem receive_block_accepts_fork b n
    (l : list (BlockRecord Scan MetaVal)) (b_last : BlockRecord Scan MetaVal) :
  agent_seq (chain n) (agent_id b) = l ++ [b_last] ->
  prerequisites_met n b ->
  prev_hash b <> Some (hash b_last) ->
  exists n',
    receive_block b n = Done true n' /\
    agent_seq (chain n') (agent_id b) = l ++ [b_last; b] /\
    ~ linked_from None (agent_seq (chain n') (agent_id b)).
Proof.
  intros Hseq Hpre Hprev.
  destruct (receive_block_accept_chain b n) as (n' & Hrun & _ & Hseq' & _).
  { by right. }
  exists n'. split; [done |]. rewrite Hseq', Hseq, <- app_assoc. simpl.
  split; [done |]. intros Hlinked. by apply linked_from_last_two in Hlinked.
Qed.

(** X6: accepting a block does not re-examine the pending list. When the
    missing predecessor of a pending block arrives and is accepted, the
    pending block stays pending and unindexed although [validate_block]
    would now accept it; it enters the ledger only if it is delivered
    again. *)
Theorem receive_block_never_retries_pending b1 b2 n :
  b2 ∈ pending_blocks n ->
  hash_index (chain n) !! hash b2 = None ->
  hash b2 <> hash b1 ->
  acceptable n b1 ->
  prev_hash b2 = Some (hash b1) ->
  agent_id b2 = agent_id b1 ->
  (forall d, d ∈ dependencies b2 -> is_Some (hash_index (chain n) !! d)) ->
  exists n',
    receive_block b1 n = Done true n' /\
    b2 ∈ pending_blocks n' /\
    hash_index (chain n') !! hash b2 = None /\
    validate_block b2 n' = Done true n'.
Proof.
  intros Hpend Hnone Hne Hacc Hprev Hag Hdeps.
  destruct (receive_block_accept_chain b1 n Hacc)
    as (n' & Hrun & _ & _ & _ & Hidx & Hpending & _).
  exists n'. split; [done |]. split; [| split].
  - rewrite Hpending. by apply list_elem_of_filter.
  - by rewrite Hidx, lookup_insert_ne.
  - apply validate_block_acceptable. right. split.
    + intros h Hh _. rewrite Hprev in Hh. injection Hh as <-.
      exists b1. by rewrite Hidx, lookup_insert_eq.
    + intros d Hd. rewrite Hidx. apply lookup_insert_is_Some'. right. by apply Hdeps.
Qed.

End Receiving.

(** ** Encoding a snapshot and reading it back *)

Lemma py_int_comp (x y : Q) : (x == y)%Q -> py_int x = py_int y.
Proof.
  intros Hxy. rewrite !py_int_truncate. unfold truncate_toward_zero.
  rewrite (Qleb_comp 0%Q 0%Q (Qeq_refl 0%Q) x y Hxy).
  by rewrite (Qfloor_comp x y Hxy), (Qceiling_comp x y Hxy).
Qed.

(** Truncating a ratio of integers is integer division toward zero. *)
Lemma py_int_ratio (x : Q) (n d : Z) :
  0 < d -> (x == inject_Z n / inject_Z d)%Q -> py_int x = Z.quot n d.
Proof.
  intros Hd Hx. rewrite (py_int_comp _ _ Hx).
  destruct d as [| d | d]; try lia.
  unfold py_int, Qdiv, Qinv, Qmult, inject_Z. simpl.
  by rewrite Z.mul_1_r.
Qed.

Section RoundTrip.

Context {Scan MetaVal St : Type}.
Implicit Types (block : option (BlockRecord Scan MetaVal)) (s : St).

(** Reconstruction on a complete mapping, field by field. *)
Lemma convert_ranges_to_state_run (a : string) (ranges : Ranges) block
    (now : Q) s (w h st : Q * Q) :
  ranges !! "Wealth" = Some w ->
  ranges !! "Hunger" = Some h ->
  ranges !! "Status" = Some st ->
  exists state,
    _convert_ranges_to_state a ranges block now s = Done (Some state) s /\
    let skill_count := Z.max 1 (py_int (midpoint w / 100)) in
    st_agent_id state = a /\
    st_skills state = skill_names skill_count /\
    st_average_accuracy state = (midpoint st / 100)%Q /\
    st_learning_iterations state =
      Z.max 0 (py_int ((midpoint w - inject_Z (skill_count * 100)) / 50)) /\
    st_needs_training state = Qltb 50 (midpoint h) /\
    st_timestamp state = match block with Some b => timestamp b | None => now end.
Proof.
  intros Hw Hh Hs. unfold _convert_ranges_to_state.
  rewrite decide_False by (intros ->; by rewrite lookup_empty in Hw).
  unfold mbind, M_bind.
  rewrite (ranges_getitem_Some _ _ _ _ Hw), (ranges_getitem_Some _ _ _ _ Hh),
    (ranges_getitem_Some _ _ _ _ Hs).
  eexists. split; [reflexivity |]. by repeat split.
Qed.

(** Whatever it returns or raises, reconstruction leaves the state alone. *)
Lemma convert_ranges_to_state_pure (a : string) (ranges : Ranges) block (now : Q) s :
  outcome_state (_convert_ranges_to_state a ranges block now s) = s.
Proof.
  unfold _convert_ranges_to_state, ranges_getitem. run_step.
  destruct (decide (ranges = ∅)); [done |].
  destruct (ranges !! "Wealth"); [| done].
  destruct (ranges !! "Hunger"); [| done].
  by destruct (ranges !! "Status").
Qed.

(** With a complete decoder reconstruction never raises. *)
Lemma convert_ranges_to_state_total (ranges : Ranges) (a : string) block (now : Q) s :
  ranges = ∅ \/
  (is_Some (ranges !! "Wealth") /\ is_Some (ranges !! "Hunger") /\
   is_Some (ranges !! "Status")) ->
  exists r, _convert_ranges_to_state a ranges block now s = Done r s.
Proof.
  intros [-> | ([w Hw] & [h Hh] & [st Hst])].
  - exists None. apply convert_ranges_to_state_empty.
  - destruct (convert_ranges_to_state_run a ranges block now s w h st Hw Hh Hst)
      as (state & Hrun & _). by exists (Some state).
Qed.

(** What is left of a snapshot after profile, codec and reconstruction. *)
Lemma reconstruction_run (a : string) (state : Snapshot) (ranges : Ranges)
    block (now : Q) s :
  decodes_to_profile ranges (_convert_state_to_profile a state) ->
  0 <= default 0 (learning_iterations state) ->
  exists st,
    _convert_ranges_to_state a ranges block now s = Done (Some st) s /\
    let k := Z.of_nat (length (default [] (skills state))) in
    let li := default 0 (learning_iterations state) in
    let acc := default (1 # 2)%Q (average_accuracy state) in
    length (st_skills st) = Z.to_nat (Z.max 1 (k + li / 2)) /\
    st_learning_iterations st = (if 1 <=? k + li / 2 then li mod 2 else 0) /\
    (st_average_accuracy st * 100 == inject_Z (py_int (acc * 100)))%Q /\
    (st_needs_training st = true <-> py_int (acc * 100) < 50) /\
    st_timestamp st = match block with Some b => timestamp b | None => now end.
Proof.
  intros (w & h & sq & Hw & Hh & Hs & Hwm & Hhm & Hsm) Hli.
  destruct (convert_ranges_to_state_run a ranges block now s w h sq Hw Hh Hs)
    as (st & Hrun & _ & Hskills & Hacc & Hiter & Hneeds & Hts).
  exists st. split; [exact Hrun |]. simpl in *.
  set (k := Z.of_nat (length (default [] (skills state)))) in *.
  set (li := default 0 (learning_iterations state)) in *.
  set (status := py_int (default (1 # 2)%Q (average_accuracy state) * 100)) in *.
  assert (Hk : 0 <= k) by (subst k; lia).
  clearbody k li status.
  assert (Hcount : py_int (midpoint w / 100) = k + li / 2).
  { rewrite (py_int_ratio _ (k * 100 + li * 50) 100) by (lia || by rewrite Hwm).
    rewrite Z.quot_div_nonneg by lia.
    Z.to_euclidean_division_equations; lia. }
  rewrite Hcount in *. split; [| split; [| split; [| split]]].
  - by rewrite Hskills, length_skill_names.
  - rewrite Hiter.
    rewrite (py_int_ratio _ (k * 100 + li * 50 - Z.max 1 (k + li / 2) * 100) 50).
    + destruct (Z.leb_spec 1 (k + li / 2)) as [Hge | Hlt].
      * rewrite (Z.max_r 1) by lia.
        Z.to_euclidean_division_equations; lia.
      * rewrite (Z.max_l 1) by lia.
        Z.to_euclidean_division_equations; lia.
    + lia.
    + unfold Zminus, Qminus. by rewrite inject_Z_plus, inject_Z_opp, Hwm.
  - rewrite Hacc, Hsm. field.
  - rewrite Hneeds, Qltb_lt, Hhm.
    change 50%Q with (inject_Z 50). rewrite <- Zlt_Qlt. lia.
  - done.
Qed.


End RoundTrip.

(** ** Queries *)

Section QueryFacts.

Context {Scan MetaVal : Type}.
Variable compute_hash :
  string -> Scan -> Q -> option string -> list string ->
  gmap string MetaVal -> string.
Variable encode : Profile -> Q -> Scan.
Variable decode : Scan -> Q -> Ranges.

Implicit Types (c : XenoChain Scan MetaVal) (b : BlockRecord Scan MetaVal).
Implicit Types (a : string).

Lemma same_content_refl c : same_content c c.
Proof. by repeat split. Qed.

Lemma agent_blocks_getitem_same a c :
  exists c', agent_blocks_getitem a c = Done (agent_seq c a) c' /\ same_content c c'.
Proof.
  destruct (agent_blocks_getitem_run a c) as (c' & Hrun & Hbl & Hidx & Hseq).
  by exists c'.
Qed.

(** X8: what [get_state] reports right after [add_block]. The latest state
    of the agent is rebuilt from the block just appended and carries that
    block's timestamp; under a codec that gives back the profile's metrics it
    shows max(1, k + li div 2) skills and li mod 2 learning iterations for a
    snapshot with k skills and li >= 0 iterations, whatever time window is
    used to decode. *)
Theorem get_state_after_add_block a (state : Snapshot) (delta_t delta_t' : Q)
    (deps : option (list string)) (meta : option (gmap string MetaVal))
    (now now' : Q) c :
  decodes_to_profile
    (decode (encode (_convert_state_to_profile a state) delta_t) delta_t')
    (_convert_state_to_profile a state) ->
  0 <= default 0 (learning_iterations state) ->
  exists h c' st,
    add_block compute_hash encode a state delta_t deps meta now c = Done h c' /\
    get_state decode a delta_t' None now' c' = Done (Some st) c' /\
    st_timestamp st = now /\
    let k := Z.of_nat (length (default [] (skills state))) in
    let li := default 0 (learning_iterations state) in
    length (st_skills st) = Z.to_nat (Z.max 1 (k + li / 2)) /\
    st_learning_iterations st = (if 1 <=? k + li / 2 then li mod 2 else 0).
Proof.
  intros Hcodec Hli.
  destruct (add_block_run compute_hash encode a state delta_t deps meta now c)
    as (c' & Hrun & _ & Hseq & _ & _).
  set (b := appended_block compute_hash encode a state delta_t deps meta now c) in *.
  destruct (reconstruction_run a state _ (Some b) now' c' Hcodec Hli)
    as (st & Hconv & Hlen & Hiter & _ & _ & Hts).
  exists (hash b), c', st. split; [exact Hrun |].
  rewrite (get_state_latest decode a delta_t' now' None b c') by
    (done || by rewrite Hseq, last_snoc).
  by repeat split.
Qed.

(** [get_history], whatever the limit. *)
Lemma get_history_run a (limit : Z) c :
  exists c',
    get_history a limit c
    = Done (match agent_seq c a with
            | [] => []
            | _ :: _ => py_slice_from (- limit) (agent_seq c a)
            end) c' /\
    same_content c c'.
Proof.
  unfold get_history, mbind, M_bind.
  destruct (agent_blocks_getitem_same a c) as (c' & -> & Hsame).
  by exists c'.
Qed.

(** X9: for a positive limit [get_history] returns the end of the agent's
    chain, oldest first: the last [limit] blocks, or the whole chain when it
    is shorter; an agent without blocks has an empty history. *)
Theorem get_history_positive_limit a (limit : Z) c :
  0 < limit ->
  exists r c' older,
    get_history a limit c = Done r c' /\
    agent_seq c a = older ++ r /\
    length r = Nat.min (Z.to_nat limit) (length (agent_seq c a)).
Proof.
  intros Hlimit. destruct (get_history_run a limit c) as (c' & Hrun & _).
  destruct (agent_seq c a) as [| b0 l] eqn:Hseq.
  - exists [], c', []. split; [done |]. split; [done |]. simpl. lia.
  - rewrite <- Hseq in *. clear Hseq.
    eexists _, c', (take (py_slice_index (- limit) (length (agent_seq c a)))
                      (agent_seq c a)).
    split; [exact Hrun |]. unfold py_slice_from.
    split; [by rewrite take_drop |]. rewrite length_drop. unfold py_slice_index.
    destruct (Z.ltb_spec (- limit) 0); lia.
Qed.

(** X10: a limit of zero does not give an empty history: [get_history]
    then returns the agent's whole chain, and for a negative limit -k the
    chain without its first k blocks. *)
Theorem get_history_nonpositive_limit a (limit : Z) c :
  limit <= 0 ->
  exists c',
    get_history a limit c = Done (drop (Z.to_nat (- limit)) (agent_seq c a)) c'.
Proof.
  intros Hlimit. destruct (get_history_run a limit c) as (c' & Hrun & _).
  exists c'. rewrite Hrun. f_equal.
  destruct (agent_seq c a) as [| b0 l] eqn:Hseq; [by rewrite drop_nil |].
  rewrite <- Hseq. clear Hseq. unfold py_slice_from, py_slice_index.
  destruct (Z.ltb_spec (- limit) 0) as [Hneg | Hpos]; [lia |].
  destruct (Z.le_gt_cases (- limit) (Z.of_nat (length (agent_seq c a)))) as [Hle | Hgt].
  - by rewrite Z.min_l.
  - rewrite Z.min_r by lia. by rewrite Nat2Z.id, !drop_ge by lia.
Qed.

(** The dependency loop leaves the ledger alone. *)
Lemma entangled_loop_pure (delta_t now : Q) (deps : list string)
    (acc : list EntangledState) c :
  outcome_state (entangled_loop decode delta_t now deps acc c) = c.
Proof.
  revert acc. induction deps as [| d deps IH]; intros acc; simpl; [done |].
  run_step. destruct (hash_index c !! d) as [bd |]; [| apply IH].
  pose proof (convert_ranges_to_state_pure (Scan:=Scan) (MetaVal:=MetaVal)
                (agent_id bd) (decode (scan bd) delta_t) (Some bd) now c) as Hpure.
  destruct (_convert_ranges_to_state _ _ _ _ c) as [r c1 | e c1];
    simpl in Hpure; subst c1; [apply IH | done].
Qed.

Lemma knowledge_loop_pure {St : Type} (delta_t now : Q)
    (recent : list (BlockRecord Scan MetaVal)) (acc : list Knowledge) (s : St) :
  outcome_state (knowledge_loop decode delta_t now recent acc s) = s.
Proof.
  revert acc. induction recent as [| b recent IH]; intros acc; simpl; [done |].
  run_step.
  pose proof (convert_ranges_to_state_pure (Scan:=Scan) (MetaVal:=MetaVal)
                (agent_id b) (decode (scan b) delta_t) (Some b) now s) as Hpure.
  destruct (_convert_ranges_to_state _ _ _ _ s) as [r s1 | e s1];
    simpl in Hpure; subst s1; [apply IH | done].
Qed.

(** X11: the queries never change what the ledger holds. Whether they return
    or raise, [get_state], [get_agent_at_time], [get_history],
    [get_entangled_states] and [get_global_knowledge] leave the global
    sequence, the hash index and every agent's chain as they were; at most an
    empty entry for a so far unknown agent is added to [agent_blocks]. *)
Theorem queries_keep_content a (t delta_t now : Q) (bh : option string)
    (limit : Z) c :
  same_content c (outcome_state (get_state decode a delta_t bh now c)) /\
  same_content c (outcome_state (get_agent_at_time decode a t delta_t now c)) /\
  same_content c (outcome_state (get_history a limit c)) /\
  same_content c (outcome_state (get_entangled_states decode a delta_t now c)) /\
  same_content c (outcome_state (get_global_knowledge decode delta_t limit now c)).
Proof.
  split; [| split; [| split; [| split]]].
  - unfold get_state. destruct (truthy_str bh).
    + run_step. destruct (hash_index c !! default "" bh) as [b |];
        [| apply same_content_refl].
      destruct (decide (agent_id b = a)); [| apply same_content_refl].
      rewrite convert_ranges_to_state_pure. apply same_content_refl.
    + unfold mbind, M_bind.
      destruct (agent_blocks_getitem_same a c) as (c' & -> & Hsame).
      destruct (last (agent_seq c a)); [| done].
      by rewrite convert_ranges_to_state_pure.
  - unfold get_agent_at_time, mbind, M_bind.
    destruct (agent_blocks_getitem_same a c) as (c' & -> & Hsame).
    destruct (agent_seq c a); [done |].
    by rewrite convert_ranges_to_state_pure.
  - destruct (get_history_run a limit c) as (c' & -> & Hsame). done.
  - unfold get_entangled_states, mbind, M_bind.
    destruct (agent_blocks_getitem_same a c) as (c' & -> & Hsame).
    destruct (last (agent_seq c a)); [| done].
    by rewrite entangled_loop_pure.
  - unfold get_global_knowledge. run_step.
    rewrite knowledge_loop_pure. apply same_content_refl.
Qed.

End QueryFacts.

(** ** Sorting by recency *)

Section SortedDesc.

Context {A : Type} (key : A -> Q).

Lemma insert_desc_perm (x : A) (s : list A) : insert_desc key x s ≡ₚ x :: s.
Proof.
  induction s as [| y s IH]; simpl; [done |].
  destruct (Qle_bool (key y) (key x)); [done |].
  rewrite IH. apply Permutation_swap.
Qed.

Lemma sorted_desc_perm (l : list A) : sorted_desc key l ≡ₚ l.
Proof.
  induction l as [| x l IH]; simpl; [done |].
  unfold sorted_desc in *. simpl. by rewrite insert_desc_perm, IH.
Qed.

Lemma insert_desc_sorted (x : A) (s : list A) :
  StronglySorted (fun u v => (key v <= key u)%Q) s ->
  StronglySorted (fun u v => (key v <= key u)%Q) (insert_desc key x s).
Proof.
  induction 1 as [| y s Hs IH Hy]; simpl.
  - repeat constructor.
  - destruct (Qle_bool (key y) (key x)) eqn:Hle.
    + apply Qle_bool_iff in Hle. constructor; [by constructor |].
      constructor; [done |].
      eapply Forall_impl; [exact Hy |]. intros z Hz. simpl in *.
      by eapply Qle_trans.
    + constructor; [done |]. rewrite insert_desc_perm. constructor; [| done].
      apply Qlt_le_weak, Qltb_lt. unfold Qltb. by rewrite Hle.
Qed.

Lemma sorted_desc_sorted (l : list A) :
  StronglySorted (fun u v => (key v <= key u)%Q) (sorted_desc key l).
Proof.
  induction l as [| x l IH]; [constructor |].
  unfold sorted_desc in *. simpl. by apply insert_desc_sorted.
Qed.

(** Inserting does not reorder elements of equal key. *)
Lemma insert_desc_stable (t : Q) (x : A) (s : list A) :
  filter (fun y => (key y == t)%Q) (insert_desc key x s)
  = filter (fun y => (key y == t)%Q) (x :: s).
Proof.
  induction s as [| y s IH]; simpl; [done |].
  destruct (Qle_bool (key y) (key x)) eqn:Hle; [done |].
  assert (Hlt : (key x < key y)%Q).
  { apply Qltb_lt. unfold Qltb. by rewrite Hle. }
  rewrite (filter_cons _ y), IH, !(filter_cons _ x), (filter_cons _ y).
  destruct (decide (key y == t)%Q) as [Hy | Hy],
    (decide (key x == t)%Q) as [Hx | Hx]; try done.
  rewrite Hx, Hy in Hlt. by apply Qlt_irrefl in Hlt.
Qed.

Lemma sorted_desc_stable (t : Q) (l : list A) :
  filter (fun y => (key y == t)%Q) (sorted_desc key l)
  = filter (fun y => (key y == t)%Q) l.
Proof.
  induction l as [| x l IH]; [done |].
  unfold sorted_desc in *. simpl.
  by rewrite insert_desc_stable, !(filter_cons _ x), IH.
Qed.

(** An element smaller than all of a list goes to its end. *)
Lemma insert_desc_smallest (x : A) (s : list A) :
  Forall (fun y => (key x < key y)%Q) s -> insert_desc key x s = s ++ [x].
Proof.
  induction 1 as [| y s Hy Hs IH]; simpl; [done |].
  apply Qltb_lt in Hy. unfold Qltb in Hy. apply negb_true_iff in Hy.
  by rewrite Hy, IH.
Qed.

(** A strictly ascending list sorts to its reverse. *)
Lemma sorted_desc_ascending (l : list A) :
  StronglySorted (fun u v => (key u < key v)%Q) l ->
  sorted_desc key l = reverse l.
Proof.
  induction 1 as [| x l Hl IH Hx]; [done |].
  unfold sorted_desc in *. simpl. rewrite IH, reverse_cons.
  apply insert_desc_smallest. by apply Forall_reverse.
Qed.

End SortedDesc.

Lemma py_slice_to_length {A : Type} (k : Z) (l : list A) :
  0 <= k -> length (py_slice_to k l) = Nat.min (Z.to_nat k) (length l).
Proof.
  intros Hk. unfold py_slice_to, py_slice_index. rewrite length_take.
  destruct (Z.ltb_spec k 0); lia.
Qed.

Lemma py_slice_to_all {A : Type} (k : Z) (l : list A) :
  Z.of_nat (length l) <= k -> py_slice_to k l = l.
Proof.
  intros Hk. unfold py_slice_to, py_slice_index.
  destruct (Z.ltb_spec k 0); [lia |]. apply take_ge. lia.
Qed.

Section RecentBlocks.

Context {Scan MetaVal P : Type}.
Implicit Types (n : ConsensusNode Scan MetaVal P).

(** X12: [get_recent_blocks] with a limit >= 0 returns the [limit] newest
    blocks of the node's global sequence (all of them if there are fewer),
    newest first: together with the blocks left out they are a rearrangement
    of the global sequence in descending timestamp order, so no block left
    out is newer than a block returned. The node is not changed. *)
Theorem get_recent_blocks_newest (limit : Z) n :
  0 <= limit ->
  exists r rest,
    get_recent_blocks limit n = Done r n /\
    r ++ rest ≡ₚ blocks (chain n) /\
    StronglySorted newer_first (r ++ rest) /\
    length r = Nat.min (Z.to_nat limit) (length (blocks (chain n))).
Proof.
  intros Hlimit. unfold get_recent_blocks, gets.
  set (s := sorted_desc timestamp (blocks (chain n))).
  exists (py_slice_to limit s), (drop (py_slice_index limit (length s)) s).
  split; [done |].
  assert (Hsplit : py_slice_to limit s ++ drop (py_slice_index limit (length s)) s = s)
    by apply take_drop.
  rewrite Hsplit. split; [apply sorted_desc_perm |].
  split; [apply (sorted_desc_sorted timestamp) |].
  rewrite py_slice_to_length by done. subst s.
  by rewrite (Permutation_length (sorted_desc_perm timestamp (blocks (chain n)))).
Qed.

(** X13: ties are settled by ledger order. Among the blocks that carry one
    and the same timestamp, those returned by [get_recent_blocks] are the
    first ones of the global sequence, in the order of the global
    sequence. *)
Theorem get_recent_blocks_ties (limit : Z) (t : Q) n :
  exists r,
    get_recent_blocks limit n = Done r n /\
    filter (fun b => (timestamp b == t)%Q) r
    `prefix_of` filter (fun b => (timestamp b == t)%Q) (blocks (chain n)).
Proof.
  unfold get_recent_blocks, gets. eexists. split; [reflexivity |].
  rewrite <- (sorted_desc_stable timestamp t (blocks (chain n))).
  set (s := sorted_desc timestamp (blocks (chain n))).
  unfold py_slice_to.
  exists (filter (fun b => (timestamp b == t)%Q)
            (drop (py_slice_index limit (length s)) s)).
  by rewrite <- filter_app, take_drop.
Qed.

End RecentBlocks.

(** ** Entangled states and global knowledge *)

Section Aggregates.

Context {Scan MetaVal : Type}.
Variable decode : Scan -> Q -> Ranges.
Hypothesis decode_ok : decode_complete decode.

Implicit Types (c : XenoChain Scan MetaVal) (b : BlockRecord Scan MetaVal).



Lemma knowledge_loop_run {St : Type} (delta_t now : Q)
    (recent : list (BlockRecord Scan MetaVal)) (acc : list Knowledge) (s : St) :
  exists r,
    knowledge_loop decode delta_t now recent acc s = Done r s /\
    (fun k => (kn_agent_id k, kn_block_hash k, kn_timestamp k)) <$> r
    = ((fun k => (kn_agent_id k, kn_block_hash k, kn_timestamp k)) <$> acc)
      ++ ((fun b => (agent_id b, hash b, timestamp b)) <$> recent).
Proof.
  revert acc. induction recent as [| b recent IH]; intros acc; simpl.
  - exists acc. by rewrite app_nil_r.
  - run_step.
    destruct (convert_ranges_to_state_total (Scan:=Scan) (MetaVal:=MetaVal)
                (decode (scan b) delta_t) (agent_id b) (Some b) now s
                (decode_ok _ _)) as (st & ->).
    destruct (IH (acc ++ [mkKnowledge (agent_id b) (hash b) (timestamp b) st]))
      as (r & Hrun & Hr).
    exists r. split; [done |]. by rewrite Hr, fmap_app, <- app_assoc.
Qed.

(** X15: [get_global_knowledge] reports on exactly the blocks that
    [get_recent_blocks] returns for the same limit, in the same order (newest
    first): with a decoder that never returns a partial mapping it gives one
    entry per such block, carrying that block's agent, hash and timestamp,
    and leaves the ledger unchanged. *)
Theorem get_global_knowledge_recent {P : Type} (delta_t : Q) (limit : Z)
    (now : Q) (n : ConsensusNode Scan MetaVal P) :
  exists r recent,
    get_global_knowledge decode delta_t limit now (chain n) = Done r (chain n) /\
    get_recent_blocks limit n = Done recent n /\
    (fun k => (kn_agent_id k, kn_block_hash k, kn_timestamp k)) <$> r
    = (fun b => (agent_id b, hash b, timestamp b)) <$> recent.
Proof.
  unfold get_global_knowledge, get_recent_blocks. run_step.
  destruct (knowledge_loop_run delta_t now
              (py_slice_to limit (sorted_desc timestamp (blocks (chain n)))) []
              (chain n)) as (r & Hrun & Hr).
  eexists r, _. split; [exact Hrun |]. split; [reflexivity |]. by rewrite Hr.
Qed.

End Aggregates.

(** ** Proposing a block *)

Section Proposing.

Context {Scan MetaVal P : Type} `{!PeerLike (Scan:=Scan) (MetaVal:=MetaVal) P}.
Variable compute_hash :
  string -> Scan -> Q -> option string -> list string ->
  gmap string MetaVal -> string.
Variable encode : Profile -> Q -> Scan.

Implicit Types (n : ConsensusNode Scan MetaVal P) (b : BlockRecord Scan MetaVal).



(** [propose_block], reduced to the local append and the broadcast. *)
Lemma propose_block_run (a : string) (state : Snapshot) (delta_t : Q)
    (deps : option (list string)) (meta : option (gmap string MetaVal))
    (now : Q) n :
  let b := appended_block compute_hash encode a state delta_t deps meta now (chain n) in
  exists c1,
    add_block compute_hash encode a state delta_t deps meta now (chain n)
      = Done (hash b) c1 /\
    hash_index c1 !! hash b = Some b /\
    propose_block compute_hash encode a state delta_t deps meta now n
    = match broadcast_block b (set_chain c1 n) with
      | Done _ n' => Done (hash b) n'
      | Raised e n' => Raised e n'
      end.
Proof.
  intros b.
  destruct (add_block_run compute_hash encode a state delta_t deps meta now (chain n))
    as (c1 & Hrun & _ & _ & _ & Hidx).
  fold b in Hrun, Hidx. exists c1. split; [done |].
  assert (Hb : hash_index c1 !! hash b = Some b) by (by rewrite Hidx, lookup_insert_eq).
  split; [done |]. unfold propose_block. run_step. rewrite Hrun. simpl.
  unfold b in Hb |- *. simpl in Hb. rewrite Hb. reflexivity.
Qed.


End Proposing.

Section ProposingAmongNodes.

Context {Scan MetaVal P : Type}.
Variable compute_hash :
  string -> Scan -> Q -> option string -> list string ->
  gmap string MetaVal -> string.
Variable encode : Profile -> Q -> Scan.

(** X17: among consensus nodes a proposal always returns, and every peer
    has then processed the new block by its own rules: a peer for which the
    block is acceptable (it has the proposer's previous block of that agent
    and all dependencies, or the agent's chain starts with this block) has
    it in its hash index; any other peer has it at the end of its pending
    list and an unchanged ledger. *)
Theorem propose_block_among_nodes (a : string) (state : Snapshot) (delta_t : Q)
    (deps : option (list string)) (meta : option (gmap string MetaVal)) (now : Q)
    (n : ConsensusNode Scan MetaVal (ConsensusNode Scan MetaVal P)) :
  let b := appended_block compute_hash encode a state delta_t deps meta now (chain n) in
  exists n',
    propose_block compute_hash encode a state delta_t deps meta now n
      = Done (hash b) n' /\
    peers n' = peer_after b <$> peers n /\
    forall p, p ∈ peers n ->
      (acceptable p b -> hash_index (chain (peer_after b p)) !! hash b = Some b) /\
      (~ acceptable p b ->
         pending_blocks (peer_after b p) = pending_blocks p ++ [b] /\
         chain (peer_after b p) = chain p).
Proof.
  intros b.
  destruct (propose_block_run compute_hash encode a state delta_t deps meta now n)
    as (c1 & _ & _ & Hrun).
  fold b in Hrun. rewrite broadcast_block_among_nodes in Hrun.
  eexists. split; [exact Hrun |]. split; [done |].
  intros p _. unfold peer_after. simpl. split.
  - intros Hacc.
    destruct (receive_block_accept_chain b p Hacc) as (p' & -> & _ & _ & _ & Hidx & _).
    simpl. by rewrite Hidx, lookup_insert_eq.
  - intros Hacc. by rewrite (receive_block_unacceptable b p Hacc).
Qed.

End ProposingAmongNodes.

(** ** Synchronising with peers *)

Section Syncing.

Context {Scan MetaVal P : Type}.

Implicit Types (n : ConsensusNode Scan MetaVal P) (b : BlockRecord Scan MetaVal).
Implicit Types (bs : list (BlockRecord Scan MetaVal)).






Lemma receive_each_app bs1 bs2 n :
  receive_each (bs1 ++ bs2) n
  = match receive_each bs1 n with
    | Done _ n1 => receive_each bs2 n1
    | Raised e n1 => Raised e n1
    end.
Proof.
  revert n. induction bs1 as [| b bs1 IH]; intros n; simpl; [done |].
  unfold mbind, M_bind. destruct (receive_block b n) as [r n1 | e n1]; [apply IH | done].
Qed.

(** Deliveries that are all turned down pile up in the pending list. *)
Lemma receive_each_rejected bs n :
  (forall b, b ∈ bs -> ~ acceptable n b) ->
  receive_each bs n = Done tt (set_pending_blocks (fun l => l ++ bs) n).
Proof.
  revert n. induction bs as [| b bs IH]; intros n Hbs; simpl.
  - destruct n. unfold set_pending_blocks. simpl. by rewrite app_nil_r.
  - unfold mbind, M_bind.
    rewrite (receive_block_unacceptable b n) by (apply Hbs; by left).
    rewrite IH.
    + unfold set_pending_blocks. simpl. by rewrite <- app_assoc.
    + intros x Hx Hacc. apply (Hbs x); [by right |].
      by apply (acceptable_chain x (set_pending_blocks (fun l => l ++ [b]) n) n).
Qed.

(** In a linked run every block but the first names the hash of a block of
    the run. *)
Lemma linked_from_names_member (prev : option string) bs b :
  linked_from prev bs -> b ∈ bs ->
  prev_hash b = prev \/ exists x, x ∈ bs /\ prev_hash b = Some (hash x).
Proof.
  revert prev. induction bs as [| y bs IH]; intros prev Hl Hb.
  - by apply not_elem_of_nil in Hb.
  - destruct Hl as [Hy Hl]. apply elem_of_cons in Hb as [-> | Hb]; [by left |].
    right. destruct (IH _ Hl Hb) as [Hprev | (x & Hx & Hprev)].
    + exists y. split; [by left | done].
    + exists x. split; [by right | done].
Qed.

End Syncing.

Section SyncingAmongNodes.

Context {Scan MetaVal P : Type}.

Implicit Types (n : ConsensusNode Scan MetaVal (ConsensusNode Scan MetaVal P)).
Implicit Types (p : ConsensusNode Scan MetaVal P) (b : BlockRecord Scan MetaVal).

(** Asking a consensus node for its recent blocks changes nothing. *)
Lemma fetch_peer_node (i : nat) n p :
  peers n !! i = Some p ->
  fetch_peer i n
  = Done (py_slice_to 100 (sorted_desc timestamp (blocks (chain p)))) n.
Proof.
  intros Hp. unfold fetch_peer. rewrite Hp. simpl. unfold get_recent_blocks, gets.
  by rewrite list_insert_id, set_peers_id.
Qed.



(** X19: peers hand over their blocks newest first, and nothing is retried,
    so one round does not copy a chain. When a node with an empty hash index
    syncs with a single peer whose ledger is one agent's linked chain of at
    most 100 blocks with strictly increasing timestamps and non-empty hashes,
    only the chain's first block is accepted; all later blocks end up in the
    pending list, newest first. *)
Theorem sync_with_peers_oldest_only n p b1
    (rest : list (BlockRecord Scan MetaVal)) :
  peers n = [p] ->
  hash_index (chain n) = ∅ ->
  blocks (chain p) = b1 :: rest ->
  (length rest < 100)%nat ->
  linked_from None (b1 :: rest) ->
  StronglySorted strictly_older (b1 :: rest) ->
  Forall (fun b => hash b <> "") (b1 :: rest) ->
  dependencies b1 = [] ->
  exists n',
    sync_with_peers n = Done tt n' /\
    blocks (chain n') = blocks (chain n) ++ [b1] /\
    pending_blocks n'
    = filter (fun x => hash x ≠ hash b1) (pending_blocks n ++ reverse rest).
Proof.
  intros Hpeers Hempty Hblocks Hlen Hlinked Hsorted Hhashes Hdeps.
  unfold sync_with_peers. run_step. rewrite Hpeers. simpl.
  unfold mbind, M_bind. rewrite (fetch_peer_node 0 n p) by (by rewrite Hpeers).
  rewrite Hblocks, (sorted_desc_ascending timestamp (b1 :: rest) Hsorted).
  rewrite py_slice_to_all by (rewrite length_reverse; simpl; lia).
  rewrite reverse_cons, receive_each_app, receive_each_rejected.
  - simpl. unfold mbind, M_bind.
    destruct (receive_block_accept_chain b1
                (set_pending_blocks (fun l => l ++ reverse rest) n))
      as (n' & -> & Hbl & _ & _ & _ & Hpending & _).
    { right. destruct Hlinked as [Hprev _]. split.
      - intros h Hh. congruence.
      - rewrite Hdeps. intros d Hd. by apply not_elem_of_nil in Hd. }
    by exists n'.
  - intros b Hb. rewrite elem_of_reverse in Hb. intros [[x Hx] | [Hprev _]].
    { rewrite Hempty, lookup_empty in Hx. done. }
    destruct Hlinked as [_ Hlinked].
    assert (Hnames : exists x, x ∈ b1 :: rest /\ prev_hash b = Some (hash x)).
    { destruct (linked_from_names_member _ _ b Hlinked Hb) as [? | (x & Hx & ?)].
      - exists b1. split; [by left | done].
      - exists x. split; [by right | done]. }
    destruct Hnames as (x & Hx & Hprevx).
    destruct (Hprev (hash x) Hprevx) as (pb & Hpb & _).
    + by apply (proj1 (Forall_forall _ _) Hhashes).
    + rewrite Hempty, lookup_empty in Hpb. done.
Qed.

End SyncingAmongNodes.

(** ** Further worked instances *)

Section MoreInstances.

Import Sample Scenario.

(** A fresh node syncing with the holder of the three-block chain: one block
    accepted, two pending, newest first. *)
Example sync_with_peers_three_blocks :
  match sync_with_peers newcomer with
  | Done _ n => (timestamp <$> blocks (chain n), timestamp <$> pending_blocks n)
  | Raised _ _ => ([], [])
  end = ([inject_Z 10], [inject_Z 30; inject_Z 20]).
Proof. vm_compute. reflexivity. Qed.

(** X1 on the empty ledger. *)
Lemma add_block_keeps_consistent_witness :
  exists h c',
    add_block compute_hash encode "a1" snap_a1 1 None None 10 XenoChain_init
      = Done h c' /\
    ledger_consistent c'.
Proof.
  apply (add_block_keeps_consistent compute_hash encode "a1" snap_a1 1 None None 10
           XenoChain_init).
  apply ledger_consistent_init.
Defined.


(** X4 on a fresh node. *)
Lemma receive_block_keeps_consistent_witness :
  exists r n', receive_block b1 node0 = Done r n' /\ ledger_consistent (chain n').
Proof.
  apply (receive_block_keeps_consistent b1 node0). apply ledger_consistent_init.
Defined.

(** X5: a second successor of [b1] delivered to a node that holds [b1; b2]. *)
Lemma receive_block_accepts_fork_witness :
  exists n',
    receive_block b2_fork node2 = Done true n' /\
    agent_seq (chain n') "a1" = [b1] ++ [b2; b2_fork] /\
    ~ linked_from None (agent_seq (chain n') "a1").
Proof.
  apply (receive_block_accepts_fork b2_fork node2 [b1] b2).
  - vm_compute. reflexivity.
  - split.
    + intros h [= <-] _. exists b1. split; [vm_compute |]; reflexivity.
    + intros d Hd. inversion Hd.
  - vm_compute. discriminate.
Defined.

(** X6: [b1] arrives at a node where [b2] is waiting for it. *)
Lemma receive_block_never_retries_pending_witness :
  exists n',
    receive_block b1 node_waiting = Done true n' /\
    b2 ∈ pending_blocks n' /\
    hash_index (chain n') !! hash b2 = None /\
    validate_block b2 n' = Done true n'.
Proof.
  apply (receive_block_never_retries_pending b1 b2 node_waiting).
  - left.
  - vm_compute. reflexivity.
  - vm_compute. discriminate.
  - right. split.
    + intros h Hh. discriminate Hh.
    + intros d Hd. inversion Hd.
  - reflexivity.
  - reflexivity.
  - intros d Hd. inversion Hd.
Defined.

Lemma sample_decodes_to_profile (p : Profile) (delta_t delta_t' : Q) :
  decodes_to_profile (decode (encode p delta_t) delta_t') p.
Proof.
  exists (inject_Z (Wealth p), inject_Z (Wealth p)),
    (inject_Z (Hunger p), inject_Z (Hunger p)),
    (inject_Z (Status p), inject_Z (Status p)).
  repeat split; try reflexivity; unfold midpoint; simpl; field.
Defined.

Lemma sample_decode_complete : decode_complete decode.
Proof.
  intros p dt. right. repeat split; eexists; reflexivity.
Defined.


(** X8 for the same snapshot appended to an empty ledger at time 10. *)
Lemma get_state_after_add_block_witness :
  exists h c' st,
    add_block compute_hash encode "a1" snap_a1 1 None None 10 XenoChain_init
      = Done h c' /\
    get_state decode "a1" (1 # 2) None 99 c' = Done (Some st) c' /\
    st_timestamp st = 10%Q /\
    length (st_skills st) = 3%nat /\
    st_learning_iterations st = 1.
Proof.
  apply (get_state_after_add_block compute_hash encode decode "a1" snap_a1 1 (1 # 2)
           None None 10 99 XenoChain_init (sample_decodes_to_profile _ 1 (1 # 2))).
  simpl. lia.
Defined.

(** X9: the last two of three blocks. *)
Lemma get_history_positive_limit_witness :
  exists r c' older,
    get_history "a1" 2 chain3 = Done r c' /\
    agent_seq chain3 "a1" = older ++ r /\
    length r = 2%nat.
Proof.
  apply (get_history_positive_limit "a1" 2 chain3). lia.
Defined.

(** X10: limit 0 on the three-block chain. *)
Lemma get_history_nonpositive_limit_witness :
  exists c', get_history "a1" 0 chain3 = Done (agent_seq chain3 "a1") c'.
Proof.
  apply (get_history_nonpositive_limit "a1" 0 chain3). lia.
Defined.

(** X12: the two newest of the holder's three blocks. *)
Lemma get_recent_blocks_newest_witness :
  exists r rest,
    get_recent_blocks 2 holder = Done r holder /\
    r ++ rest ≡ₚ blocks (chain holder) /\
    StronglySorted newer_first (r ++ rest) /\
    length r = 2%nat.
Proof.
  apply (get_recent_blocks_newest 2 holder). lia.
Defined.


(** X15 on the holder's ledger. *)
Lemma get_global_knowledge_recent_witness :
  exists r recent,
    get_global_knowledge decode 1 2 0 (chain holder) = Done r (chain holder) /\
    get_recent_blocks 2 holder = Done recent holder /\
    (fun k => (kn_agent_id k, kn_block_hash k, kn_timestamp k)) <$> r
    = (fun b => (agent_id b, hash b, timestamp b)) <$> recent.
Proof.
  apply (get_global_knowledge_recent decode sample_decode_complete 1 2 0 holder).
Defined.

(** X19: the newcomer syncing with the holder of the three-block chain. *)
Lemma sync_with_peers_oldest_only_witness :
  exists n',
    sync_with_peers newcomer = Done tt n' /\
    blocks (chain n') = blocks (chain newcomer) ++ [chain3_first] /\
    pending_blocks n'
    = filter (fun x => hash x ≠ hash chain3_first)
        (pending_blocks newcomer ++ reverse chain3_rest).
Proof.
  apply (sync_with_peers_oldest_only newcomer holder chain3_first chain3_rest).
  - reflexivity.
  - reflexivity.
  - vm_compute. reflexivity.
  - vm_compute. lia.
  - vm_compute. repeat split.
  - repeat constructor; vm_compute; reflexivity.
  - repeat constructor; vm_compute; discriminate.
  - vm_compute. reflexivity.
Defined.

End MoreInstances.
